(** * Coreference matcher: a shallow embedding of [coreference_matcher.py]

    The Python module defines an abstract recognizer class and three concrete
    recognizers (a rule based English one, a pass-through one for Indonesian
    and a multi language orchestrator).  Objects become records of their
    fields, methods become functions threading the object state, [None]
    becomes [option], and an exception raised by Python is the [None] outcome
    of a computation in the state-and-error monad [M]. *)

From Stdlib Require Import String Ascii List Bool Arith Lia.
Import ListNotations.
Open Scope list_scope.
Open Scope string_scope.

(** ** Python values and the [str] methods the module calls *)

(** A Python value that is either a [str] or [None]. *)
Definition pystr := option string.

(** Truthiness of a [str]-or-[None] value: [None] and the empty string are
    falsy. *)
Definition truthy (v : pystr) : bool :=
  match v with
  | None => false
  | Some EmptyString => false
  | Some _ => true
  end.

Module Py.

(** [sep.join(parts)]. *)
Definition join (sep : string) (parts : list string) : string :=
  String.concat sep parts.

(** [s.find(sub)]: the least index at which [sub] occurs in [s]. *)
Definition find (s sub : string) : option nat := String.index 0 sub s.

(** [sub in s]. *)
Definition contains (s sub : string) : bool :=
  match find s sub with Some _ => true | None => false end.

(** [s.startswith(p)]. *)
Definition startswith (s p : string) : bool := String.prefix p s.

(** [s[n:]]. *)
Fixpoint drop (n : nat) (s : string) : string :=
  match n, s with
  | O, _ => s
  | S _, EmptyString => EmptyString
  | S k, String _ rest => drop k rest
  end.

(** [s[:n]]. *)
Fixpoint take (n : nat) (s : string) : string :=
  match n, s with
  | O, _ => EmptyString
  | S _, EmptyString => EmptyString
  | S k, String c rest => String c (take k rest)
  end.

(** The scan of [s.replace(old, new)] for a non-empty [old]: left to right,
    every occurrence of [old] that does not overlap an earlier replaced one is
    replaced.  [skip] counts the characters of a replaced occurrence that are
    still to be passed over. *)
Fixpoint replace_scan (old new : string) (skip : nat) (s : string) : string :=
  match s with
  | EmptyString => EmptyString
  | String c rest =>
      match skip with
      | S k => replace_scan old new k rest
      | O =>
          if String.prefix old s
          then new ++ replace_scan old new (String.length old - 1) rest
          else String c (replace_scan old new 0 rest)
      end
  end.

(** [s.replace("", new)]: [new] is inserted before every character and at
    the end. *)
Fixpoint replace_empty (new s : string) : string :=
  match s with
  | EmptyString => new
  | String c rest => new ++ String c (replace_empty new rest)
  end.

(** [s.replace(old, new)], without a count: all occurrences. *)
Definition replace (s old new : string) : string :=
  match old with
  | EmptyString => replace_empty new s
  | String _ _ => replace_scan old new 0 s
  end.

(** [s.split(sep)] for a one character separator. *)
Fixpoint split (sep : ascii) (s : string) : list string :=
  match s with
  | EmptyString => [EmptyString]
  | String c rest =>
      if Ascii.eqb c sep then EmptyString :: split sep rest
      else match split sep rest with
           | [] => [String c EmptyString]
           | word :: words => String c word :: words
           end
  end.

(** [word in words] for a collection of strings; [None] is in none. *)
Definition mem (word : pystr) (words : list string) : bool :=
  match word with
  | None => false
  | Some w => existsb (String.eqb w) words
  end.

End Py.

(** ** The query context model (objects of the dialog state, read only) *)

Record QueryContextItem : Type := {
  get_name : string;
  get_values : list string
}.

Record QueryContext : Type := {
  get_entityName : string;
  get_items : list QueryContextItem;
  get_primaryKeyItems : list QueryContextItem;
  get_filterPhrase : pystr
}.

Record CoreferenceContext : Type := {
  get_singularPersonQueryContext : option QueryContext;
  get_singularObjectQueryContext : option QueryContext;
  get_pluralPersonQueryContext : option QueryContext;
  get_pluralObjectQueryContext : option QueryContext
}.

(** ** The collaborators: spaCy and the [inflection] package

    The module is written against a spaCy language model, the spaCy [Matcher]
    and [inflection.pluralize].  They are not part of the repository; the
    embedding takes them as an interface. *)

(** A token pattern as the module builds them: the sequence of the [LEMMA]
    values its tokens must have. *)
Definition Pattern := list string.

Class Collaborators : Type := {
  (** A spaCy [Doc]. *)
  Doc : Type;
  (** [spacy_model(text)]. *)
  spacy_model : string -> Doc;
  (** [Matcher(vocab)], then [matcher.add(key, None, pattern)] for every entry
      of the list, then [matcher(doc)]: the [(start, end)] token spans. *)
  run_matcher : list (string * Pattern) -> Doc -> list (nat * nat);
  (** [doc[start:end].text]. *)
  span_text : Doc -> nat -> nat -> string;
  (** [inflection.pluralize(noun)]. *)
  pluralize : string -> string
}.

(** ** Class constants *)

Definition _SPACE : string := " ".
Definition _ITEM_SEPERATOR : string := " or ".
Definition _PARENTHESES : list string := ["("; ")"].
Definition _PRESUMPTIVE_SINGULAR_START_PHRASE : string := "There is a".
Definition _SENTENCE_SEPERATOR : string := ". ".
Definition _WITH_PREPOSITION : string := "with".
Definition _PRON_LEMMA : string := "-PRON-".

(** ** AbstractEnglishCoreferenceRecognizer: the phrase builder *)

(** [_item_patterns(item_name)]: one pattern, a pronoun followed by the words
    of the item name. *)
Definition _item_patterns (item_name : string) : list Pattern :=
  [_PRON_LEMMA :: Py.split " "%char item_name].

(** The closure [query_context_items_phrase(item_name, item_values)] of
    [_prepare_dialog_items_from_query_context_items]; the variables it
    captures are its first three arguments. *)
Definition query_context_items_phrase
    (attribute_reference presumptive : bool) (entity_name : string)
    (item_name : string) (item_values : list string) : string :=
  let item_phrases :=
    map (fun item_value =>
           let query_context_item_phrase :=
             Py.join _SPACE [item_name; item_value] in
           let item_phrase_tokens :=
             if negb attribute_reference
             then [_WITH_PREPOSITION; query_context_item_phrase]
             else [query_context_item_phrase] in
           Py.join _SPACE item_phrase_tokens)
        item_values in
  if Nat.eqb (List.length item_values) 1 then
    let tokens :=
      if presumptive
      then [_PRESUMPTIVE_SINGULAR_START_PHRASE;
            Py.join _ITEM_SEPERATOR item_phrases]
      else [Py.join _ITEM_SEPERATOR item_phrases] in
    if attribute_reference then Py.join _SPACE tokens
    else entity_name ++ _SPACE ++ Py.join _SPACE tokens
  else
    if attribute_reference then Py.join _ITEM_SEPERATOR item_phrases
    else entity_name ++ _SPACE ++ Py.join _ITEM_SEPERATOR item_phrases.

(** [_prepare_dialog_item_from_filter_phrase]: the list after the append. *)
Definition _prepare_dialog_item_from_filter_phrase
    (dialog_items : list string) (pluralized_entity_name : string)
    (plural_query_context : QueryContext) : list string :=
  let filter_phrase := get_filterPhrase plural_query_context in
  match filter_phrase with
  | Some ((String _ _) as phrase) =>
      (dialog_items ++
       [Py.join _SPACE
          [pluralized_entity_name; Py.join phrase _PARENTHESES]])%list
  | _ => (dialog_items ++ [pluralized_entity_name])%list
  end.

(** ** AbstractCoreferenceRecognizer: the fields every recognizer has *)

Record RecognizerState : Type := {
  _presumptive_reference_text : pystr;
  _utterance : pystr
}.

(** [AbstractCoreferenceRecognizer.__init__]. *)
Definition AbstractCoreferenceRecognizer_init : RecognizerState :=
  {| _presumptive_reference_text := None; _utterance := None |}.

Definition set_utterance (utterance : pystr) (self : RecognizerState)
    : RecognizerState :=
  {| _presumptive_reference_text := _presumptive_reference_text self;
     _utterance := utterance |}.

Definition set_presumptive_reference_text (text : pystr)
    (self : RecognizerState) : RecognizerState :=
  {| _presumptive_reference_text := text; _utterance := _utterance self |}.

(** ** The two English recognizer classes *)

(** Which of the two phrase preparation methods is handed to
    [_resolve_pronouns] as its [context_resolution_function]. *)
Inductive ResolutionFunction : Type :=
| prepare_singular  (* self._prepare_singular_query_context_phrase *)
| prepare_plural.   (* self._prepare_plural_query_context_phrase *)

(** One call of [_resolve_pronouns], with its arguments. *)
Record Resolution : Type := {
  res_attribute_reference : bool;
  res_function : ResolutionFunction;
  res_context : option QueryContext;
  res_matched_text : string
}.

(** The pronoun tables of [RuleBasedEnglishCoreferenceRecognizer].  The three
    tables written [{}] are empty dicts; membership in them is always false. *)
Definition _COMMON_OBJECT_PRONOUNS : list string := [].
Definition _COMMON_PERSON_PRONOUNS : list string := ["you"; "your"; "yours"].
Definition _COMMON_PLURAL_PRONOUNS : list string :=
  ["they"; "their"; "them"; "theirs"].
Definition _COMMON_SINGULAR_PRONOUNS : list string := ["it"; "its"].
Definition _PLURAL_OBJECT_PRONOUNS : list string := [].
Definition _PLURAL_PERSON_PRONOUNS : list string := ["our"; "ours"; "we"; "us"].
Definition _PLURAL_PRONOUNS : list string :=
  (_COMMON_PLURAL_PRONOUNS ++ _PLURAL_OBJECT_PRONOUNS
     ++ _PLURAL_PERSON_PRONOUNS)%list.
Definition _PRONOUN_PATTERN : Pattern := [_PRON_LEMMA].
Definition _PRONOUN_PATTERN_NAME : string := "pronoun".
Definition _SINGULAR_OBJECT_PRONOUNS : list string := [].
Definition _SINGULAR_PERSON_PRONOUNS : list string :=
  ["i"; "me"; "mine"; "he"; "him"; "his"; "she"; "her"; "hers"].
Definition _SINGULAR_PRONOUNS : list string :=
  (_COMMON_SINGULAR_PRONOUNS ++ _SINGULAR_OBJECT_PRONOUNS
     ++ _SINGULAR_PERSON_PRONOUNS)%list.

(** [_item_names(query_context)]: [None], or the set of the item names.  A
    Python set has no duplicates and no specified order; the list keeps the
    names in the order of the items. *)
Definition _item_names (query_context : option QueryContext)
    : option (list string) :=
  match query_context with
  | None => None
  | Some context =>
      match get_items context with
      | [] => None
      | items => Some (nodup string_dec (map get_name items))
      end
  end.

Section English.

Context {C : Collaborators}.

(** The fields of a [RuleBasedEnglishCoreferenceRecognizer]: the inherited
    ones, [_utterance_doc] and [_coreference_context].  [_spacy_model] and
    [_pronoun_matcher] are fixed at construction and come from [C].
    [resolutions] is a ghost field: the calls of [_resolve_pronouns] made
    since the last [recognize] started, oldest first. *)
Record EnglishState : Type := {
  base : RecognizerState;
  _utterance_doc : option Doc;
  _coreference_context : option CoreferenceContext;
  resolutions : list Resolution
}.

(** [RuleBasedEnglishCoreferenceRecognizer.__init__]. *)
Definition RuleBasedEnglish_init : EnglishState :=
  {| base := AbstractCoreferenceRecognizer_init;
     _utterance_doc := None;
     _coreference_context := None;
     resolutions := [] |}.

(** A method of the English recognizer: it reads and updates [self] and
    either returns a value or raises. *)
Definition M (A : Type) : Type := EnglishState -> option (A * EnglishState).

Definition ret {A : Type} (a : A) : M A := fun self => Some (a, self).

Definition bind {A B : Type} (m : M A) (k : A -> M B) : M B :=
  fun self =>
    match m self with
    | Some (a, self') => k a self'
    | None => None
    end.

Definition raise {A : Type} : M A := fun _ => None.

Definition get : M EnglishState := fun self => Some (self, self).

Definition modify (f : EnglishState -> EnglishState) : M unit :=
  fun self => Some (tt, f self).

(** Using a value that must not be [None] (an attribute access or a call on
    [None] raises). *)
Definition require {A : Type} (v : option A) : M A :=
  match v with
  | Some a => ret a
  | None => raise
  end.

(** [for x in xs: body(x)]. *)
Fixpoint for_each {A : Type} (xs : list A) (body : A -> M unit) : M unit :=
  match xs with
  | [] => ret tt
  | x :: rest => bind (body x) (fun _ => for_each rest body)
  end.

(** A [for] loop that carries local variables [acc]. *)
Fixpoint for_fold {A S : Type} (xs : list A) (acc : S)
    (body : S -> A -> M S) : M S :=
  match xs with
  | [] => ret acc
  | x :: rest => bind (body acc x) (fun acc' => for_fold rest acc' body)
  end.

End English.

Declare Scope method_scope.
Delimit Scope method_scope with method.
Notation "x <- m ;; k" := (bind m (fun x => k))
  (at level 61, m at next level, right associativity) : method_scope.
Notation "m ;; k" := (bind m (fun _ => k))
  (at level 61, right associativity) : method_scope.
Open Scope method_scope.

Section EnglishMethods.

Context {C : Collaborators}.

Definition write_utterance (utterance : pystr) : M unit :=
  modify (fun self =>
    {| base := set_utterance utterance (base self);
       _utterance_doc := _utterance_doc self;
       _coreference_context := _coreference_context self;
       resolutions := resolutions self |}).

Definition write_utterance_doc (doc : Doc) : M unit :=
  modify (fun self =>
    {| base := base self;
       _utterance_doc := Some doc;
       _coreference_context := _coreference_context self;
       resolutions := resolutions self |}).

Definition write_coreference_context (context : CoreferenceContext)
    : M unit :=
  modify (fun self =>
    {| base := base self;
       _utterance_doc := _utterance_doc self;
       _coreference_context := Some context;
       resolutions := resolutions self |}).

Definition write_resolutions (log : list Resolution) : M unit :=
  modify (fun self =>
    {| base := base self;
       _utterance_doc := _utterance_doc self;
       _coreference_context := _coreference_context self;
       resolutions := log |}).

Definition read_utterance : M string :=
  self <- get ;; require (_utterance (base self)).

Definition read_utterance_doc : M Doc :=
  self <- get ;; require (_utterance_doc self).

Definition read_coreference_context : M CoreferenceContext :=
  self <- get ;; require (_coreference_context self).

(** [_prepare_dialog_items_from_query_context_items]: [dialog_items] is
    appended to in place; the method returns the list as it is afterwards. *)
Definition _prepare_dialog_items_from_query_context_items
    (attribute_reference : bool) (dialog_items : list string)
    (entity_name : string) (query_context : QueryContext)
    (presumptive : bool) : M (list string) :=
  let phrase :=
    query_context_items_phrase attribute_reference presumptive entity_name in
  state <-
    for_fold (get_items query_context) (dialog_items, false)
      (fun state query_context_item =>
         let item_name := get_name query_context_item in
         doc <- read_utterance_doc ;;
         let matches :=
           run_matcher
             (map (fun pattern => (item_name, pattern))
                  (_item_patterns item_name)) doc in
         match matches with
         | [] => ret state
         | _ :: _ =>
             ret ((fst state ++
                   [phrase item_name (get_values query_context_item)])%list,
                  snd state || true)
         end) ;;
  if snd state then ret (fst state)
  else
    ret (fold_left
           (fun items query_context_item =>
              (items ++
               [phrase (get_name query_context_item)
                       (get_values query_context_item)])%list)
           (get_primaryKeyItems query_context) (fst state)).

(** [_prepare_plural_query_context_phrase]. *)
Definition _prepare_plural_query_context_phrase
    (dialog_items : list string) (plural_query_context : option QueryContext)
    (attribute_reference presumptive : bool) : M (list string) :=
  match plural_query_context with
  | None => ret dialog_items
  | Some context =>
      let pluralized_entity_name := pluralize (get_entityName context) in
      dialog_items <-
        _prepare_dialog_items_from_query_context_items
          attribute_reference dialog_items pluralized_entity_name context
          presumptive ;;
      ret (_prepare_dialog_item_from_filter_phrase
             dialog_items pluralized_entity_name context)
  end.

(** [_prepare_singular_query_context_phrase]. *)
Definition _prepare_singular_query_context_phrase
    (dialog_items : list string)
    (singular_query_context : option QueryContext)
    (attribute_reference presumptive : bool) : M (list string) :=
  match singular_query_context with
  | None => ret dialog_items
  | Some context =>
      let entity_name := get_entityName context in
      _prepare_dialog_items_from_query_context_items
        attribute_reference dialog_items entity_name context presumptive
  end.

(** The bound method a [ResolutionFunction] stands for. *)
Definition context_resolution (f : ResolutionFunction)
    : list string -> option QueryContext -> bool -> bool -> M (list string) :=
  match f with
  | prepare_singular => _prepare_singular_query_context_phrase
  | prepare_plural => _prepare_plural_query_context_phrase
  end.

(** [self._pronoun_matcher(doc)]. *)
Definition _pronoun_matcher (doc : Doc) : list (nat * nat) :=
  run_matcher [(_PRONOUN_PATTERN_NAME, _PRONOUN_PATTERN)] doc.

(** The texts of the matched spans of [doc]. *)
Definition matched_texts (doc : Doc) (matches : list (nat * nat))
    : list string :=
  map (fun span => span_text doc (fst span) (snd span)) matches.

(** [_match_item_patterns]. *)
Definition _match_item_patterns : M (list string) :=
  context <- read_coreference_context ;;
  let plural_object_item_names :=
    _item_names (get_pluralObjectQueryContext context) in
  let plural_person_item_names :=
    _item_names (get_pluralPersonQueryContext context) in
  let singular_object_item_names :=
    _item_names (get_singularObjectQueryContext context) in
  let singular_person_query_context :=
    _item_names (get_singularPersonQueryContext context) in
  let chained :=
    flat_map (fun item_names =>
                match item_names with
                | Some ((_ :: _) as names) => names
                | _ => []
                end)
      [plural_object_item_names; plural_person_item_names;
       singular_object_item_names; singular_person_query_context] in
  let added :=
    flat_map (fun item_name =>
                map (fun pattern => (item_name, pattern))
                    (_item_patterns item_name))
      chained in
  doc <- read_utterance_doc ;;
  ret (matched_texts doc (run_matcher added doc)).

(** [_match_pronoun(text)]. *)
Definition _match_pronoun (text : string) : pystr :=
  let text_doc := spacy_model text in
  match _pronoun_matcher text_doc with
  | [] => None
  | (start_idx, end_idx) :: _ => Some (span_text text_doc start_idx end_idx)
  end.

(** [_match_pronouns]. *)
Definition _match_pronouns : M (list string) :=
  doc <- read_utterance_doc ;;
  ret (matched_texts doc (_pronoun_matcher doc)).

(** [_resolve_query_context]. *)
Definition _resolve_query_context (dialog_items : list string)
    (matched_text : string) : M unit :=
  match dialog_items with
  | [] => ret tt
  | first :: _ =>
      utterance <- read_utterance ;;
      write_utterance (Some (Py.replace utterance matched_text first))
  end.

(** [_resolve_pronouns]; the call is recorded in the ghost field first.  The
    resolution function is called without [presumptive], which defaults to
    [False]. *)
Definition _resolve_pronouns (attribute_reference : bool)
    (context_resolution_function : ResolutionFunction)
    (coreference_context : option QueryContext) (matched_text : string)
    : M unit :=
  self <- get ;;
  write_resolutions
    (resolutions self ++
     [{| res_attribute_reference := attribute_reference;
         res_function := context_resolution_function;
         res_context := coreference_context;
         res_matched_text := matched_text |}])%list ;;
  dialog_items <-
    context_resolution context_resolution_function
      [] coreference_context attribute_reference false ;;
  _resolve_query_context dialog_items matched_text.

(** [_recognize_plural_pronouns]. *)
Definition _recognize_plural_pronouns (matched_text : string)
    (pronoun : pystr) (attribute_reference : bool) : M unit :=
  if negb (Py.mem pronoun _PLURAL_PRONOUNS) then ret tt
  else
    (if negb (Py.mem pronoun _PLURAL_PERSON_PRONOUNS)
     then
       self_context <- read_coreference_context ;;
       let context := get_pluralObjectQueryContext self_context in
       _resolve_pronouns attribute_reference prepare_plural context
         matched_text
     else ret tt) ;;
    (if negb (Py.mem pronoun _PLURAL_OBJECT_PRONOUNS)
     then
       self_context <- read_coreference_context ;;
       let context := get_pluralPersonQueryContext self_context in
       _resolve_pronouns attribute_reference prepare_plural context
         matched_text
     else ret tt).

(** [_recognize_singular_pronouns]. *)
Definition _recognize_singular_pronouns (matched_text : string)
    (pronoun : pystr) (attribute_reference : bool) : M unit :=
  if negb (Py.mem pronoun _SINGULAR_PRONOUNS) then ret tt
  else
    (if negb (Py.mem pronoun _SINGULAR_PERSON_PRONOUNS)
     then
       self_context <- read_coreference_context ;;
       _resolve_pronouns attribute_reference prepare_singular
         (get_singularObjectQueryContext self_context) matched_text
     else ret tt) ;;
    (if negb (Py.mem pronoun _SINGULAR_OBJECT_PRONOUNS)
     then
       self_context <- read_coreference_context ;;
       _resolve_pronouns attribute_reference prepare_singular
         (get_singularPersonQueryContext self_context) matched_text
     else ret tt).

(** [_recognize_common_pronouns]. *)
Definition _recognize_common_pronouns (matched_text : string)
    (pronoun : pystr) (attribute_reference : bool) : M unit :=
  _recognize_singular_pronouns matched_text pronoun attribute_reference ;;
  _recognize_plural_pronouns matched_text pronoun attribute_reference.

(** [_recognize_attribute_references]. *)
Definition _recognize_attribute_references : M unit :=
  matched <- _match_item_patterns ;;
  for_each matched
    (fun matched_text =>
       let pronoun := _match_pronoun matched_text in
       _recognize_common_pronouns matched_text pronoun true).

(** [_recognize_entity_references]. *)
Definition _recognize_entity_references : M unit :=
  matched <- _match_pronouns ;;
  for_each matched
    (fun pronoun =>
       _recognize_common_pronouns pronoun (Some pronoun) false).

(** [RuleBasedEnglishCoreferenceRecognizer.recognize].  The language model
    is called on [self._utterance]; on [None] it raises. *)
Definition RuleBasedEnglish_recognize
    (coreference_context : option CoreferenceContext) (utterance : pystr)
    : M unit :=
  write_resolutions [] ;;
  write_utterance utterance ;;
  match coreference_context with
  | None => ret tt
  | Some context =>
      text <- read_utterance ;;
      write_utterance_doc (spacy_model text) ;;
      write_coreference_context context ;;
      _recognize_attribute_references ;;
      _recognize_entity_references
  end.

(** [RuleBasedEnglishCoreferenceRecognizer.resolve]. *)
Definition RuleBasedEnglish_resolve (self : EnglishState) : pystr :=
  _utterance (base self).

End EnglishMethods.

(** ** The recognizer objects and dynamic dispatch *)

Section Recognizers.

Context {C : Collaborators}.

(** [IndonesianCoreferenceRecognizer.recognize]. *)
Definition Indonesian_recognize
    (coreference_context : option CoreferenceContext) (utterance : pystr)
    (self : RecognizerState) : RecognizerState :=
  set_utterance utterance self.

(** [IndonesianCoreferenceRecognizer.resolve]. *)
Definition Indonesian_resolve (self : RecognizerState) : pystr :=
  _utterance self.

(** A recognizer object.  The three classes of the module, and [Subclass]
    for any other implementation of the abstract class: a state and the three
    methods of the interface, [recognize] answering [None] when it raises.
    The orchestrator owns the recognizers of its list. *)
#[local] Unset Elimination Schemes.
Inductive Recognizer : Type :=
| Indonesian (self : RecognizerState)
| RuleBasedEnglish (self : EnglishState)
| MultiLanguage (self : RecognizerState)
    (_coreference_recognizers : list Recognizer)
| Subclass (State : Type) (self : State)
    (recognize_method :
       option CoreferenceContext -> pystr -> State -> option State)
    (resolve_method : State -> pystr)
    (presumptive_reference_text_method : State -> pystr).
#[local] Set Elimination Schemes.

(** [MultiLanguageCoreferenceRecognizer.__init__]. *)
Definition MultiLanguage_init : Recognizer :=
  MultiLanguage AbstractCoreferenceRecognizer_init [].

(** [add_recognizer]; on another object than an orchestrator the attribute
    does not exist. *)
Definition add_recognizer (coreference_recognizer : Recognizer)
    (self : Recognizer) : option Recognizer :=
  match self with
  | MultiLanguage state recognizers =>
      Some (MultiLanguage state
              (recognizers ++ [coreference_recognizer])%list)
  | _ => None
  end.

(** [recognizer.resolve()]. *)
Definition resolve (recognizer : Recognizer) : pystr :=
  match recognizer with
  | Indonesian self => Indonesian_resolve self
  | RuleBasedEnglish self => RuleBasedEnglish_resolve self
  | MultiLanguage self _ => _utterance self
  | Subclass _ self _ resolve_method _ => resolve_method self
  end.

(** [recognizer.presumptive_reference_text()]: the three classes inherit the
    method of the abstract class. *)
Definition presumptive_reference_text (recognizer : Recognizer) : pystr :=
  match recognizer with
  | Indonesian self => _presumptive_reference_text self
  | RuleBasedEnglish self => _presumptive_reference_text (base self)
  | MultiLanguage self _ => _presumptive_reference_text self
  | Subclass _ self _ _ text_method => text_method self
  end.

(** [if presumptive_reference_text: texts.append(presumptive_reference_text)]. *)
Definition append_if_truthy (texts : list string) (text : pystr)
    : list string :=
  match text with
  | Some ((String _ _) as t) => (texts ++ [t])%list
  | _ => texts
  end.

(** The [for] loop of [MultiLanguageCoreferenceRecognizer.recognize]; [call]
    is [coreference_recognizer.recognize(coreference_context, _)].  It
    returns the recognizers as the calls leave them, [self] and the list
    [presumptive_reference_texts]. *)
Fixpoint MultiLanguage_loop
    (call : pystr -> Recognizer -> option Recognizer)
    (recognizers : list Recognizer) (utterance : pystr)
    (self : RecognizerState) (presumptive_reference_texts : list string)
    : option (list Recognizer * RecognizerState * list string) :=
  match recognizers with
  | [] => Some ([], self, presumptive_reference_texts)
  | coreference_recognizer :: rest =>
      match call utterance coreference_recognizer with
      | None => None
      | Some coreference_recognizer =>
          let utterance := resolve coreference_recognizer in
          let self := set_utterance (resolve coreference_recognizer) self in
          let text := presumptive_reference_text coreference_recognizer in
          let presumptive_reference_texts :=
            append_if_truthy presumptive_reference_texts text in
          match MultiLanguage_loop call rest utterance self
                  presumptive_reference_texts with
          | None => None
          | Some (rest, self, texts) =>
              Some (coreference_recognizer :: rest, self, texts)
          end
      end
  end.

(** [MultiLanguageCoreferenceRecognizer.recognize]. *)
Definition MultiLanguage_recognize
    (call : pystr -> Recognizer -> option Recognizer)
    (coreference_context : option CoreferenceContext) (utterance : pystr)
    (self : RecognizerState) (recognizers : list Recognizer)
    : option (RecognizerState * list Recognizer) :=
  let self := set_utterance utterance self in
  match coreference_context with
  | None => Some (self, recognizers)
  | Some _ =>
      match MultiLanguage_loop call recognizers utterance self [] with
      | None => None
      | Some (recognizers, self, presumptive_reference_texts) =>
          Some (set_presumptive_reference_text
                  (Some (Py.join _SPACE presumptive_reference_texts)) self,
                recognizers)
      end
  end.

(** [recognizer.recognize(coreference_context, utterance)]: the object after
    the call, or [None] when the call raises. *)
Fixpoint recognize (coreference_context : option CoreferenceContext)
    (utterance : pystr) (recognizer : Recognizer) {struct recognizer}
    : option Recognizer :=
  match recognizer with
  | Indonesian self =>
      Some (Indonesian (Indonesian_recognize coreference_context utterance self))
  | RuleBasedEnglish self =>
      match RuleBasedEnglish_recognize coreference_context utterance self with
      | Some (_, self) => Some (RuleBasedEnglish self)
      | None => None
      end
  | MultiLanguage self recognizers =>
      match MultiLanguage_recognize
              (fun text each => recognize coreference_context text each)
              coreference_context utterance self recognizers with
      | Some (self, recognizers) => Some (MultiLanguage self recognizers)
      | None => None
      end
  | Subclass State self recognize_method resolve_method text_method =>
      match recognize_method coreference_context utterance self with
      | Some self => Some (Subclass State self recognize_method resolve_method
                             text_method)
      | None => None
      end
  end.

End Recognizers.

(** ** A test double for the collaborators

    A whitespace tokenizer whose pronouns are the words of the pronoun tables
    with lemma [-PRON-] (every other token is its own lemma), a matcher that
    reports every position where an added pattern matches the lemmas, and a
    pluralizer that appends an [s].  On the punctuation free utterances and
    the nouns of the examples below it answers as spaCy's English model and
    [inflection] do. *)

Module TestDouble.

Definition pronoun_words : list string :=
  (_COMMON_PERSON_PRONOUNS ++ _SINGULAR_PRONOUNS ++ _PLURAL_PRONOUNS)%list.

Definition lemma (token : string) : string :=
  if Py.mem (Some token) pronoun_words then _PRON_LEMMA else token.

Fixpoint pattern_matches (pattern : Pattern) (tokens : list string) : bool :=
  match pattern, tokens with
  | [], _ => true
  | _ :: _, [] => false
  | l :: pattern', token :: tokens' =>
      String.eqb l (lemma token) && pattern_matches pattern' tokens'
  end.

Fixpoint matches_from (added : list (string * Pattern)) (start : nat)
    (tokens : list string) : list (nat * nat) :=
  match tokens with
  | [] => []
  | _ :: rest =>
      (flat_map
         (fun entry =>
            if pattern_matches (snd entry) tokens
            then [(start, start + List.length (snd entry))]
            else [])
         added
       ++ matches_from added (S start) rest)%list
  end.

Definition collaborators : Collaborators :=
  {| Doc := list string;
     spacy_model := Py.split " "%char;
     run_matcher := fun added doc => matches_from added 0 doc;
     span_text := fun doc start_idx end_idx =>
       Py.join " " (firstn (end_idx - start_idx) (skipn start_idx doc));
     pluralize := fun noun => noun ++ "s" |}.

End TestDouble.

(** ** Definitions used to state the properties *)

Section Views.

Context {C : Collaborators}.

(** An object on which a sequence of [recognize] calls is made, in order. *)
Fixpoint recognize_all
    (calls : list (option CoreferenceContext * pystr))
    (recognizer : Recognizer) : option Recognizer :=
  match calls with
  | [] => Some recognizer
  | (coreference_context, utterance) :: rest =>
      match recognize coreference_context utterance recognizer with
      | Some recognizer' => recognize_all rest recognizer'
      | None => None
      end
  end.

(** The English recognizer is in the middle of a [recognize] call with a
    context: utterance, document and context are set. *)
Definition ready (self : EnglishState) : Prop :=
  (exists utterance, _utterance (base self) = Some utterance) /\
  (exists doc, _utterance_doc self = Some doc) /\
  (exists context, _coreference_context self = Some context).

(** The matcher built for one item finds its pattern in the document. *)
Definition item_matches (doc : Doc) (item : QueryContextItem) : bool :=
  match run_matcher
          (map (fun pattern => (get_name item, pattern))
               (_item_patterns (get_name item))) doc with
  | [] => false
  | _ :: _ => true
  end.

(** The items whose phrases are appended: the matched items, or the primary
    key items when no item matches. *)
Definition chosen_items (doc : Doc) (query_context : QueryContext)
    : list QueryContextItem :=
  match filter (item_matches doc) (get_items query_context) with
  | [] => get_primaryKeyItems query_context
  | matched => matched
  end.

(** The phrase of one item. *)
Definition item_phrase (attribute_reference presumptive : bool)
    (entity_name : string) (item : QueryContextItem) : string :=
  query_context_items_phrase attribute_reference presumptive entity_name
    (get_name item) (get_values item).

(** The dialog items a resolution function appends for a context. *)
Definition dialog_items_for (doc : Doc) (f : ResolutionFunction)
    (context : option QueryContext) (attribute_reference presumptive : bool)
    : list string :=
  match context with
  | None => []
  | Some query_context =>
      match f with
      | prepare_singular =>
          map (item_phrase attribute_reference presumptive
                 (get_entityName query_context))
              (chosen_items doc query_context)
      | prepare_plural =>
          _prepare_dialog_item_from_filter_phrase
            (map (item_phrase attribute_reference presumptive
                    (pluralize (get_entityName query_context)))
                 (chosen_items doc query_context))
            (pluralize (get_entityName query_context)) query_context
      end
  end.

(** The utterance a resolution leaves: unchanged without dialog items, else
    the first dialog item takes the place of the matched text. *)
Definition resolved_utterance (utterance matched_text : string)
    (dialog_items : list string) : string :=
  match dialog_items with
  | [] => utterance
  | first :: _ => Py.replace utterance matched_text first
  end.

(** The object after a call of [_resolve_pronouns] that returns. *)
Definition after_resolution (self : EnglishState)
    (utterance : string) (doc : Doc) (attribute_reference : bool)
    (f : ResolutionFunction) (context : option QueryContext)
    (matched_text : string) : EnglishState :=
  {| base :=
       set_utterance
         (Some (resolved_utterance utterance matched_text
                  (dialog_items_for doc f context attribute_reference false)))
         (base self);
     _utterance_doc := _utterance_doc self;
     _coreference_context := _coreference_context self;
     resolutions :=
       (resolutions self ++
        [{| res_attribute_reference := attribute_reference;
            res_function := f;
            res_context := context;
            res_matched_text := matched_text |}])%list |}.

(** The record of a call of [_resolve_pronouns]. *)
Definition call_of (attribute_reference : bool) (f : ResolutionFunction)
    (context : option QueryContext) (matched_text : string) : Resolution :=
  {| res_attribute_reference := attribute_reference;
     res_function := f;
     res_context := context;
     res_matched_text := matched_text |}.

(** What a returning method may change: the utterance and the record of the
    resolutions, which grows by [log]. *)
Definition steps (self self' : EnglishState) (log : list Resolution) : Prop :=
  (exists utterance, _utterance (base self') = Some utterance) /\
  _utterance_doc self' = _utterance_doc self /\
  _coreference_context self' = _coreference_context self /\
  _presumptive_reference_text (base self') =
    _presumptive_reference_text (base self) /\
  resolutions self' = (resolutions self ++ log)%list.

(** The method returns from [self], having made the resolutions [log]. *)
Definition runs {A : Type} (m : M A) (self : EnglishState)
    (log : list Resolution) : Prop :=
  exists a self', m self = Some (a, self') /\ steps self self' log.

(** The method returns from [self]. *)
Definition returns {A : Type} (m : M A) (self : EnglishState) : Prop :=
  exists log, runs m self log.

(** Orchestration as the specification words it: every recognizer in order is
    given the utterance the previous one resolved, the first one the original
    utterance.  The result is the recognizers after their calls and the last
    resolved utterance. *)
Fixpoint threaded (coreference_context : option CoreferenceContext)
    (utterance : pystr) (recognizers : list Recognizer)
    : option (list Recognizer * pystr) :=
  match recognizers with
  | [] => Some ([], utterance)
  | first :: rest =>
      match recognize coreference_context utterance first with
      | None => None
      | Some first' =>
          match threaded coreference_context (resolve first') rest with
          | None => None
          | Some (rest', final) => Some (first' :: rest', final)
          end
      end
  end.

(** The presumptive texts of the recognizers that are not [None]. *)
Definition non_none_texts (recognizers : list Recognizer) : list string :=
  flat_map (fun each =>
              match presumptive_reference_text each with
              | Some text => [text]
              | None => []
              end) recognizers.

(** The presumptive texts of the recognizers that are neither [None] nor
    empty. *)
Definition non_empty_texts (recognizers : list Recognizer) : list string :=
  flat_map (fun each =>
              match presumptive_reference_text each with
              | Some ((String _ _) as text) => [text]
              | _ => []
              end) recognizers.

End Views.

(** [s.replace(old, new, 1)]: only the first occurrence is replaced. *)
Definition replace_first (s old new : string) : string :=
  match Py.find s old with
  | None => s
  | Some i =>
      Py.take i s ++ new ++ Py.drop (i + String.length old) s
  end.

(** The dispatch rule as the specification words it, for one classified
    pronoun: per cardinality, the object context unless the word is in the
    person table, then the person context unless the word is in the object
    table. *)
Definition dispatch_rule (context : CoreferenceContext)
    (matched_text : string) (pronoun : pystr) (attribute_reference : bool)
    : list Resolution :=
  let dispatch f query_context :=
    {| res_attribute_reference := attribute_reference;
       res_function := f;
       res_context := query_context;
       res_matched_text := matched_text |} in
  let cardinality f pronouns person_pronouns object_pronouns
        object_context person_context :=
    if Py.mem pronoun pronouns
    then ((if Py.mem pronoun person_pronouns then []
           else [dispatch f object_context]) ++
          (if Py.mem pronoun object_pronouns then []
           else [dispatch f person_context]))%list
    else [] in
  (cardinality prepare_singular _SINGULAR_PRONOUNS _SINGULAR_PERSON_PRONOUNS
     _SINGULAR_OBJECT_PRONOUNS (get_singularObjectQueryContext context)
     (get_singularPersonQueryContext context) ++
   cardinality prepare_plural _PLURAL_PRONOUNS _PLURAL_PERSON_PRONOUNS
     _PLURAL_OBJECT_PRONOUNS (get_pluralObjectQueryContext context)
     (get_pluralPersonQueryContext context))%list.

(** ** Example inputs *)

Module Examples.

Definition item (name : string) (values : list string) : QueryContextItem :=
  {| get_name := name; get_values := values |}.

Definition no_context : CoreferenceContext :=
  {| get_singularPersonQueryContext := None;
     get_singularObjectQueryContext := None;
     get_pluralPersonQueryContext := None;
     get_pluralObjectQueryContext := None |}.

(** The plural object context of the specification's example. *)
Definition orders : QueryContext :=
  {| get_entityName := "order";
     get_items := [];
     get_primaryKeyItems := [item "id" ["1"; "2"]];
     get_filterPhrase := Some "over $50" |}.

Definition orders_context : CoreferenceContext :=
  {| get_singularPersonQueryContext := None;
     get_singularObjectQueryContext := None;
     get_pluralPersonQueryContext := None;
     get_pluralObjectQueryContext := Some orders |}.

(** A singular object known by its colour. *)
Definition product : QueryContext :=
  {| get_entityName := "product";
     get_items := [];
     get_primaryKeyItems := [item "color" ["red"]];
     get_filterPhrase := None |}.

Definition product_context : CoreferenceContext :=
  {| get_singularPersonQueryContext := None;
     get_singularObjectQueryContext := Some product;
     get_pluralPersonQueryContext := None;
     get_pluralObjectQueryContext := None |}.

(** A singular object whose only item has no values. *)
Definition valueless : QueryContext :=
  {| get_entityName := "product";
     get_items := [];
     get_primaryKeyItems := [item "id" []];
     get_filterPhrase := None |}.

Definition valueless_context : CoreferenceContext :=
  {| get_singularPersonQueryContext := None;
     get_singularObjectQueryContext := Some valueless;
     get_pluralPersonQueryContext := None;
     get_pluralObjectQueryContext := None |}.

(** A freshly constructed English recognizer on the test double. *)
Definition english : Recognizer :=
  RuleBasedEnglish (C := TestDouble.collaborators) RuleBasedEnglish_init.

(** The English recognizer on the test double in the middle of a call. *)
Definition english_at (context : CoreferenceContext) (utterance : string)
    : EnglishState (C := TestDouble.collaborators) :=
  {| base := set_utterance (Some utterance) AbstractCoreferenceRecognizer_init;
     _utterance_doc :=
       Some (spacy_model (Collaborators := TestDouble.collaborators)
               utterance);
     _coreference_context := Some context;
     resolutions := [] |}.

(** Another implementation of the abstract class: it resolves to the
    utterance it is given and always offers the same presumptive text. *)
Definition announcing (text : string) : Recognizer :=
  Subclass (C := TestDouble.collaborators) pystr None
    (fun _ utterance _ => Some utterance)
    (fun self => self)
    (fun _ => Some text).

(** An orchestrator holding the given recognizers. *)
Definition orchestrator (recognizers : list Recognizer) : Recognizer :=
  MultiLanguage (C := TestDouble.collaborators)
    AbstractCoreferenceRecognizer_init recognizers.

(** A singular object with an item, its colour, and no primary key. *)
Definition colored_product : QueryContext :=
  {| get_entityName := "product";
     get_items := [item "color" ["red"]];
     get_primaryKeyItems := [];
     get_filterPhrase := None |}.

Definition colored_product_context : CoreferenceContext :=
  {| get_singularPersonQueryContext := None;
     get_singularObjectQueryContext := Some colored_product;
     get_pluralPersonQueryContext := None;
     get_pluralObjectQueryContext := None |}.

End Examples.

(** ** Definitions for the two passes of the English recognizer *)

Section Replay.

Context {C : Collaborators}.

(** The utterance after a sequence of resolutions, made in order from
    [utterance] on the document [doc]. *)
Definition replay (doc : Doc) (log : list Resolution) (utterance : string)
    : string :=
  fold_left
    (fun text resolution =>
       resolved_utterance text (res_matched_text resolution)
         (dialog_items_for doc (res_function resolution)
            (res_context resolution) (res_attribute_reference resolution)
            false))
    log utterance.

(** The method returns from [self], having made the resolutions [log], and
    the utterance it leaves is the replay of [log]. *)
Definition replays {A : Type} (m : M A) (self : EnglishState)
    (log : list Resolution) : Prop :=
  forall (utterance : string) (doc : Doc),
    _utterance (base self) = Some utterance ->
    _utterance_doc self = Some doc ->
    exists a self',
      m self = Some (a, self') /\
      steps self self' log /\
      _utterance (base self') = Some (replay doc log utterance).

(** The object of the English recognizer when the two passes start. *)
Definition pass_start (context : CoreferenceContext) (utterance : string)
    (self : EnglishState) : EnglishState :=
  {| base := set_utterance (Some utterance) (base self);
     _utterance_doc := Some (spacy_model utterance);
     _coreference_context := Some context;
     resolutions := [] |}.

(** The resolutions of the attribute reference pass for the matched texts. *)
Definition attribute_pass_log (context : CoreferenceContext)
    (matched : list string) : list Resolution :=
  flat_map (fun matched_text =>
              dispatch_rule context matched_text (_match_pronoun matched_text)
                true) matched.

(** The resolutions of the entity reference pass for the matched pronouns. *)
Definition entity_pass_log (context : CoreferenceContext)
    (matched : list string) : list Resolution :=
  flat_map (fun pronoun =>
              dispatch_rule context pronoun (Some pronoun) false) matched.

End Replay.

(** ** Recognizers as objects of a store

    [add_recognizer] stores a reference, so one recognizer may be held by
    several orchestrators, several times by one, or by itself.  Here the
    objects of the module's three classes live in a store and an orchestrator
    holds the addresses of its recognizers. *)

Section Store.

Context {C : Collaborators}.
















End Store.


(** * Properties *)

(** ** Python's [str.replace] *)

Lemma find_empty (old : string) :
  Py.find "" old = match old with EmptyString => Some 0 | _ => None end.
Proof. destruct old; reflexivity. Qed.

Lemma find_cons (c : ascii) (rest old : string) :
  Py.find (String c rest) old =
  if String.prefix old (String c rest) then Some 0
  else match Py.find rest old with
       | Some n => Some (S n)
       | None => None
       end.
Proof. reflexivity. Qed.

Lemma replace_scan_skip (old new : string) (k : nat) :
  forall s, Py.replace_scan old new k s = Py.replace_scan old new 0 (Py.drop k s).
Proof.
  induction k as [|k IH]; intros s.
  - destruct s; reflexivity.
  - destruct s as [|c rest]; [reflexivity|].
    simpl. apply IH.
Qed.

Lemma replace_nonempty (s old new : string) :
  old <> "" -> Py.replace s old new = Py.replace_scan old new 0 s.
Proof. destruct old; [congruence | reflexivity]. Qed.

(** At an occurrence the replacement is emitted and the scan resumes after
    the occurrence. *)
Lemma replace_at_occurrence (s old new : string) :
  old <> "" -> String.prefix old s = true ->
  Py.replace s old new =
  new ++ Py.replace (Py.drop (String.length old) s) old new.
Proof.
  intros Hold Hpre.
  rewrite !replace_nonempty by assumption.
  destruct old as [|a old']; [congruence|].
  destruct s as [|c rest]; [discriminate|].
  cbn [Py.replace_scan]. rewrite Hpre.
  rewrite replace_scan_skip.
  cbn [String.length Py.drop Nat.sub]. rewrite ?Nat.sub_0_r. reflexivity.
Qed.

(** Where no occurrence starts the character is kept. *)
Lemma replace_past_character (c : ascii) (rest old new : string) :
  old <> "" -> String.prefix old (String c rest) = false ->
  Py.replace (String c rest) old new = String c (Py.replace rest old new).
Proof.
  intros Hold Hpre.
  rewrite !replace_nonempty by assumption.
  cbn [Py.replace_scan]. rewrite Hpre. reflexivity.
Qed.

(** Without an occurrence nothing changes. *)
Lemma replace_absent (old new : string) :
  old <> "" ->
  forall s, Py.find s old = None -> Py.replace s old new = s.
Proof.
  intros Hold s. induction s as [|c rest IH]; intros Hfind.
  - rewrite replace_nonempty by assumption. reflexivity.
  - rewrite find_cons in Hfind.
    destruct (String.prefix old (String c rest)) eqn:Hpre; [discriminate|].
    destruct (Py.find rest old) eqn:Hrest; [discriminate|].
    rewrite replace_past_character by assumption.
    rewrite IH; reflexivity.
Qed.

(** With an occurrence, the first one is replaced and so are the occurrences
    in what follows it. *)
Lemma replace_present (old new : string) :
  old <> "" ->
  forall s i, Py.find s old = Some i ->
  Py.replace s old new =
  Py.take i s ++ new ++
  Py.replace (Py.drop (i + String.length old) s) old new.
Proof.
  intros Hold s. induction s as [|c rest IH]; intros i Hfind.
  - rewrite find_empty in Hfind. destruct old; [congruence | discriminate].
  - rewrite find_cons in Hfind.
    destruct (String.prefix old (String c rest)) eqn:Hpre.
    + injection Hfind as <-.
      rewrite replace_at_occurrence by assumption. reflexivity.
    + destruct (Py.find rest old) as [n|] eqn:Hrest; [|discriminate].
      injection Hfind as <-.
      rewrite replace_past_character by assumption.
      rewrite (IH n eq_refl). reflexivity.
Qed.

(** ** Running the methods of the English recognizer *)

Section Running.

Context {C : Collaborators}.

Lemma steps_refl (self : EnglishState) : ready self -> steps self self [].
Proof.
  intros (Hu & _ & _). unfold steps. rewrite app_nil_r. auto.
Qed.

Lemma steps_trans (s1 s2 s3 : EnglishState) (l1 l2 : list Resolution) :
  steps s1 s2 l1 -> steps s2 s3 l2 -> steps s1 s3 (l1 ++ l2).
Proof.
  intros (_ & Hd1 & Hc1 & Hp1 & Hl1) (Hu & Hd2 & Hc2 & Hp2 & Hl2).
  unfold steps. repeat split; try congruence.
  rewrite Hl2, Hl1, app_assoc. reflexivity.
Qed.

Lemma steps_ready (s1 s2 : EnglishState) (log : list Resolution) :
  ready s1 -> steps s1 s2 log -> ready s2.
Proof.
  intros (_ & Hd & Hc) (Hu & Hd' & Hc' & _).
  unfold ready. rewrite Hd', Hc'. auto.
Qed.

Lemma runs_ret {A : Type} (a : A) (self : EnglishState) :
  ready self -> runs (ret a) self [].
Proof. intros H. exists a, self. split; [reflexivity | now apply steps_refl]. Qed.

Lemma runs_bind {A B : Type} (m : M A) (k : A -> M B) (self : EnglishState)
    (l1 l2 : list Resolution) :
  runs m self l1 ->
  (forall a self', m self = Some (a, self') -> steps self self' l1 ->
     runs (k a) self' l2) ->
  runs (bind m k) self (l1 ++ l2).
Proof.
  intros (a & s1 & Hm & Hs1) Hk.
  destruct (Hk a s1 Hm Hs1) as (b & s2 & Hkb & Hs2).
  exists b, s2. split.
  - unfold bind. rewrite Hm. exact Hkb.
  - eapply steps_trans; eassumption.
Qed.

Lemma returns_ret {A : Type} (a : A) (self : EnglishState) :
  ready self -> returns (ret a) self.
Proof. intros H. exists []. now apply runs_ret. Qed.

Lemma returns_bind {A B : Type} (m : M A) (k : A -> M B)
    (self : EnglishState) :
  ready self -> returns m self ->
  (forall a self', ready self' -> returns (k a) self') ->
  returns (bind m k) self.
Proof.
  intros Hready (l1 & Hm) Hk.
  destruct Hm as (a & s1 & Hm & Hs1).
  destruct (Hk a s1 (steps_ready _ _ _ Hready Hs1)) as (l2 & Hk2).
  exists (l1 ++ l2)%list.
  apply runs_bind.
  - exists a, s1. auto.
  - intros a' s' Hm' _. rewrite Hm in Hm'. injection Hm' as <- <-. exact Hk2.
Qed.

Lemma returns_for_each {A : Type} (body : A -> M unit) :
  (forall x self, ready self -> returns (body x) self) ->
  forall xs self, ready self -> returns (for_each xs body) self.
Proof.
  intros Hbody xs. induction xs as [|x rest IH]; intros self Hready.
  - now apply returns_ret.
  - cbn [for_each]. apply returns_bind; auto.
Qed.

Lemma read_utterance_doc_run (self : EnglishState) (doc : Doc) :
  _utterance_doc self = Some doc ->
  read_utterance_doc self = Some (doc, self).
Proof.
  intros H. unfold read_utterance_doc, bind, get, require. rewrite H.
  reflexivity.
Qed.

Lemma read_utterance_run (self : EnglishState) (utterance : string) :
  _utterance (base self) = Some utterance ->
  read_utterance self = Some (utterance, self).
Proof.
  intros H. unfold read_utterance, bind, get, require. rewrite H.
  reflexivity.
Qed.

Lemma read_coreference_context_run (self : EnglishState)
    (context : CoreferenceContext) :
  _coreference_context self = Some context ->
  read_coreference_context self = Some (context, self).
Proof.
  intros H. unfold read_coreference_context, bind, get, require. rewrite H.
  reflexivity.
Qed.

End Running.

(** ** The dialog items of a query context *)

Section DialogItems.

Context {C : Collaborators}.

Lemma fold_left_append {A : Type} (f : A -> string) (xs : list A) :
  forall acc : list string,
  fold_left (fun items x => (items ++ [f x])%list) xs acc =
  (acc ++ map f xs)%list.
Proof.
  induction xs as [|x rest IH]; intros acc; cbn [fold_left map].
  - now rewrite app_nil_r.
  - rewrite IH, <- app_assoc. reflexivity.
Qed.

(** The loop over the items appends the phrases of the matched items, in
    order, and remembers whether there was one. *)
Lemma items_loop_run (attribute_reference presumptive : bool)
    (entity_name : string) (doc : Doc) (self : EnglishState) :
  _utterance_doc self = Some doc ->
  forall (items : list QueryContextItem) (dialog_items : list string)
         (items_matched : bool),
  for_fold items (dialog_items, items_matched)
    (fun state query_context_item =>
       let item_name := get_name query_context_item in
       doc <- read_utterance_doc ;;
       let matches :=
         run_matcher
           (map (fun pattern => (item_name, pattern))
                (_item_patterns item_name)) doc in
       match matches with
       | [] => ret state
       | _ :: _ =>
           ret ((fst state ++
                 [query_context_items_phrase attribute_reference presumptive
                    entity_name item_name
                    (get_values query_context_item)])%list,
                snd state || true)
       end) self =
  Some ((dialog_items ++
         map (item_phrase attribute_reference presumptive entity_name)
             (filter (item_matches doc) items))%list,
        items_matched || existsb (item_matches doc) items, self).
Proof.
  intros Hdoc items.
  induction items as [|item rest IH]; intros dialog_items items_matched.
  - cbn. rewrite app_nil_r, orb_false_r. reflexivity.
  - cbn [for_fold filter existsb]. unfold bind at 1. unfold bind at 1.
    rewrite (read_utterance_doc_run _ _ Hdoc).
    remember (item_matches doc item) as matched eqn:Hmatched.
    unfold item_matches in Hmatched. cbv zeta.
    destruct (run_matcher _ doc) as [|span spans]; subst matched;
      cbn [ret fst snd].
    + rewrite IH. reflexivity.
    + rewrite IH. cbn [map]. rewrite <- app_assoc. cbn [app].
      destruct items_matched; reflexivity.
Qed.

Lemma filter_none {A : Type} (f : A -> bool) (xs : list A) :
  existsb f xs = false -> filter f xs = [].
Proof.
  induction xs as [|x rest IH]; cbn; [reflexivity|].
  destruct (f x); cbn; [discriminate | exact IH].
Qed.

Lemma filter_some {A : Type} (f : A -> bool) (xs : list A) :
  existsb f xs = true -> filter f xs <> [].
Proof.
  induction xs as [|x rest IH]; cbn; [discriminate|].
  destruct (f x); cbn; [discriminate | exact IH].
Qed.

(** [_prepare_dialog_items_from_query_context_items] returns, leaves the
    object as it is and appends one phrase for each chosen item. *)
Lemma prepare_items_run (attribute_reference presumptive : bool)
    (dialog_items : list string) (entity_name : string)
    (query_context : QueryContext) (doc : Doc) (self : EnglishState) :
  _utterance_doc self = Some doc ->
  _prepare_dialog_items_from_query_context_items attribute_reference
    dialog_items entity_name query_context presumptive self =
  Some ((dialog_items ++
         map (item_phrase attribute_reference presumptive entity_name)
             (chosen_items doc query_context))%list, self).
Proof.
  intros Hdoc.
  unfold _prepare_dialog_items_from_query_context_items. unfold bind at 1.
  rewrite (items_loop_run _ _ _ doc self Hdoc). cbn [fst snd orb].
  unfold chosen_items.
  destruct (existsb (item_matches doc) (get_items query_context)) eqn:Hany.
  - apply filter_some in Hany.
    destruct (filter (item_matches doc) (get_items query_context));
      [congruence | reflexivity].
  - rewrite (filter_none _ _ Hany). cbn [map ret].
    rewrite app_nil_r, fold_left_append. reflexivity.
Qed.

Lemma filter_phrase_append (before items : list string) (name : string)
    (query_context : QueryContext) :
  _prepare_dialog_item_from_filter_phrase (before ++ items) name query_context =
  (before ++ _prepare_dialog_item_from_filter_phrase items name query_context)%list.
Proof.
  unfold _prepare_dialog_item_from_filter_phrase.
  destruct (get_filterPhrase query_context) as [[|c phrase]|];
    now rewrite app_assoc.
Qed.

(** Both resolution functions return, leave the object as it is and append
    [dialog_items_for]. *)
Lemma context_resolution_run (f : ResolutionFunction)
    (dialog_items : list string) (context : option QueryContext)
    (attribute_reference presumptive : bool) (doc : Doc)
    (self : EnglishState) :
  _utterance_doc self = Some doc ->
  context_resolution f dialog_items context attribute_reference presumptive
    self =
  Some ((dialog_items ++
         dialog_items_for doc f context attribute_reference presumptive)%list,
        self).
Proof.
  intros Hdoc.
  destruct f, context as [query_context|]; cbn;
    try (rewrite app_nil_r; reflexivity).
  - now apply prepare_items_run.
  - unfold bind. rewrite (prepare_items_run _ _ _ _ _ doc self Hdoc).
    cbn [ret]. rewrite filter_phrase_append. reflexivity.
Qed.

(** [_resolve_query_context] on an object holding an utterance. *)
Lemma resolve_query_context_run (dialog_items : list string)
    (matched_text utterance : string) (self : EnglishState) :
  _utterance (base self) = Some utterance ->
  _resolve_query_context dialog_items matched_text self =
  Some (tt,
        {| base :=
             set_utterance
               (Some (resolved_utterance utterance matched_text dialog_items))
               (base self);
           _utterance_doc := _utterance_doc self;
           _coreference_context := _coreference_context self;
           resolutions := resolutions self |}).
Proof.
  intros Hu. destruct self as [[text u] doc context log]. cbn in Hu. subst u.
  destruct dialog_items as [|first more]; reflexivity.
Qed.

(** One resolution: [_resolve_pronouns] returns and leaves
    [after_resolution]. *)
Lemma resolve_pronouns_run (attribute_reference : bool)
    (f : ResolutionFunction) (context : option QueryContext)
    (matched_text utterance : string) (doc : Doc) (self : EnglishState) :
  _utterance (base self) = Some utterance ->
  _utterance_doc self = Some doc ->
  _resolve_pronouns attribute_reference f context matched_text self =
  Some (tt, after_resolution self utterance doc attribute_reference f context
              matched_text).
Proof.
  intros Hu Hdoc.
  unfold _resolve_pronouns, bind at 1. cbn [get].
  unfold bind at 1. cbn [write_resolutions modify].
  unfold bind.
  erewrite context_resolution_run by exact Hdoc. cbn [app].
  erewrite resolve_query_context_run by exact Hu.
  reflexivity.
Qed.

Lemma resolve_pronouns_runs (attribute_reference : bool)
    (f : ResolutionFunction) (context : option QueryContext)
    (matched_text : string) (self : EnglishState) :
  ready self ->
  runs (_resolve_pronouns attribute_reference f context matched_text) self
    [{| res_attribute_reference := attribute_reference;
        res_function := f;
        res_context := context;
        res_matched_text := matched_text |}].
Proof.
  intros ((utterance & Hu) & (doc & Hdoc) & _).
  eexists tt, _. split.
  - apply (resolve_pronouns_run _ _ _ _ utterance doc); assumption.
  - unfold steps, after_resolution; cbn. eauto 6.
Qed.

End DialogItems.

(** ** Classification of a pronoun and the two passes *)

Section Dispatch.

Context {C : Collaborators}.

Lemma mem_nil (pronoun : pystr) : Py.mem pronoun [] = false.
Proof. destruct pronoun; reflexivity. Qed.

Lemma mem_In (word : string) (words : list string) :
  Py.mem (Some word) words = true -> In word words.
Proof.
  cbn [Py.mem]. rewrite existsb_exists. intros (x & Hin & Heq).
  apply String.eqb_eq in Heq. now subst x.
Qed.

(** The tables of the two cardinalities share no word. *)
Lemma singular_not_plural (pronoun : pystr) :
  Py.mem pronoun _SINGULAR_PRONOUNS = true ->
  Py.mem pronoun _PLURAL_PRONOUNS = false.
Proof.
  destruct pronoun as [word|]; [|reflexivity].
  intros H. apply mem_In in H. cbn in H.
  repeat (destruct H as [<-|H]; [reflexivity|]). destruct H.
Qed.

Lemma guarded_dispatch_runs (guard attribute_reference : bool)
    (f : ResolutionFunction)
    (getter : CoreferenceContext -> option QueryContext)
    (matched_text : string) (context : CoreferenceContext)
    (self : EnglishState) :
  ready self -> _coreference_context self = Some context ->
  runs (if guard
        then self_context <- read_coreference_context ;;
             _resolve_pronouns attribute_reference f (getter self_context)
               matched_text
        else ret tt) self
       (if guard
        then [call_of attribute_reference f (getter context) matched_text]
        else []).
Proof.
  intros Hready Hcontext. destruct guard.
  - destruct (resolve_pronouns_runs attribute_reference f (getter context)
                matched_text self Hready) as (a & self' & Hrun & Hsteps).
    exists a, self'. split; [|exact Hsteps].
    unfold bind. rewrite (read_coreference_context_run _ _ Hcontext).
    exact Hrun.
  - now apply runs_ret.
Qed.

Lemma steps_context (self self' : EnglishState) (log : list Resolution)
    (context : CoreferenceContext) :
  _coreference_context self = Some context -> steps self self' log ->
  _coreference_context self' = Some context.
Proof. intros H (_ & _ & Hc & _). congruence. Qed.

Lemma recognize_singular_runs (matched_text : string) (pronoun : pystr)
    (attribute_reference : bool) (context : CoreferenceContext)
    (self : EnglishState) :
  ready self -> _coreference_context self = Some context ->
  runs (_recognize_singular_pronouns matched_text pronoun attribute_reference)
    self
    (if Py.mem pronoun _SINGULAR_PRONOUNS
     then (if Py.mem pronoun _SINGULAR_PERSON_PRONOUNS then []
           else [call_of attribute_reference prepare_singular
                   (get_singularObjectQueryContext context) matched_text]) ++
          (if Py.mem pronoun _SINGULAR_OBJECT_PRONOUNS then []
           else [call_of attribute_reference prepare_singular
                   (get_singularPersonQueryContext context) matched_text])
     else [])%list.
Proof.
  intros Hready Hcontext. unfold _recognize_singular_pronouns.
  destruct (Py.mem pronoun _SINGULAR_PRONOUNS); cbn [negb];
    [|now apply runs_ret].
  apply runs_bind.
  - pose proof (guarded_dispatch_runs
                  (negb (Py.mem pronoun _SINGULAR_PERSON_PRONOUNS))
                  attribute_reference prepare_singular
                  get_singularObjectQueryContext matched_text context self
                  Hready Hcontext) as H.
    destruct (Py.mem pronoun _SINGULAR_PERSON_PRONOUNS); exact H.
  - intros a self' _ Hsteps.
    pose proof (guarded_dispatch_runs
                  (negb (Py.mem pronoun _SINGULAR_OBJECT_PRONOUNS))
                  attribute_reference prepare_singular
                  get_singularPersonQueryContext matched_text context self'
                  (steps_ready _ _ _ Hready Hsteps)
                  (steps_context _ _ _ _ Hcontext Hsteps)) as H.
    destruct (Py.mem pronoun _SINGULAR_OBJECT_PRONOUNS); exact H.
Qed.

Lemma recognize_plural_runs (matched_text : string) (pronoun : pystr)
    (attribute_reference : bool) (context : CoreferenceContext)
    (self : EnglishState) :
  ready self -> _coreference_context self = Some context ->
  runs (_recognize_plural_pronouns matched_text pronoun attribute_reference)
    self
    (if Py.mem pronoun _PLURAL_PRONOUNS
     then (if Py.mem pronoun _PLURAL_PERSON_PRONOUNS then []
           else [call_of attribute_reference prepare_plural
                   (get_pluralObjectQueryContext context) matched_text]) ++
          (if Py.mem pronoun _PLURAL_OBJECT_PRONOUNS then []
           else [call_of attribute_reference prepare_plural
                   (get_pluralPersonQueryContext context) matched_text])
     else [])%list.
Proof.
  intros Hready Hcontext. unfold _recognize_plural_pronouns.
  destruct (Py.mem pronoun _PLURAL_PRONOUNS); cbn [negb];
    [|now apply runs_ret].
  apply runs_bind.
  - pose proof (guarded_dispatch_runs
                  (negb (Py.mem pronoun _PLURAL_PERSON_PRONOUNS))
                  attribute_reference prepare_plural
                  get_pluralObjectQueryContext matched_text context self
                  Hready Hcontext) as H.
    destruct (Py.mem pronoun _PLURAL_PERSON_PRONOUNS); exact H.
  - intros a self' _ Hsteps.
    pose proof (guarded_dispatch_runs
                  (negb (Py.mem pronoun _PLURAL_OBJECT_PRONOUNS))
                  attribute_reference prepare_plural
                  get_pluralPersonQueryContext matched_text context self'
                  (steps_ready _ _ _ Hready Hsteps)
                  (steps_context _ _ _ _ Hcontext Hsteps)) as H.
    destruct (Py.mem pronoun _PLURAL_OBJECT_PRONOUNS); exact H.
Qed.

(** Classifying one pronoun returns, and the resolutions it makes are those
    of the dispatch rule, in its order. *)
Lemma recognize_common_runs (matched_text : string) (pronoun : pystr)
    (attribute_reference : bool) (context : CoreferenceContext)
    (self : EnglishState) :
  ready self -> _coreference_context self = Some context ->
  runs (_recognize_common_pronouns matched_text pronoun attribute_reference)
    self (dispatch_rule context matched_text pronoun attribute_reference).
Proof.
  intros Hready Hcontext. unfold _recognize_common_pronouns.
  apply (runs_bind _ _ _ _ _
           (recognize_singular_runs matched_text pronoun attribute_reference
              context self Hready Hcontext)).
  intros a self' _ Hsteps.
  apply recognize_plural_runs.
  - exact (steps_ready _ _ _ Hready Hsteps).
  - exact (steps_context _ _ _ _ Hcontext Hsteps).
Qed.

Lemma recognize_common_returns (matched_text : string) (pronoun : pystr)
    (attribute_reference : bool) (self : EnglishState) :
  ready self ->
  returns (_recognize_common_pronouns matched_text pronoun attribute_reference)
    self.
Proof.
  intros Hready. pose proof Hready as (_ & _ & context & Hcontext).
  eexists. now apply (recognize_common_runs _ _ _ context).
Qed.

(** No classified pronoun makes more than two resolutions. *)
Lemma dispatch_rule_length (context : CoreferenceContext)
    (matched_text : string) (pronoun : pystr) (attribute_reference : bool) :
  List.length
    (dispatch_rule context matched_text pronoun attribute_reference) <= 2.
Proof.
  unfold dispatch_rule.
  destruct (Py.mem pronoun _SINGULAR_PRONOUNS) eqn:Hsingular.
  - rewrite (singular_not_plural _ Hsingular), app_nil_r.
    destruct (Py.mem pronoun _SINGULAR_PERSON_PRONOUNS),
             (Py.mem pronoun _SINGULAR_OBJECT_PRONOUNS); cbn; lia.
  - cbn [app].
    destruct (Py.mem pronoun _PLURAL_PRONOUNS),
             (Py.mem pronoun _PLURAL_PERSON_PRONOUNS),
             (Py.mem pronoun _PLURAL_OBJECT_PRONOUNS); cbn; lia.
Qed.

Lemma match_item_patterns_returns (self : EnglishState) :
  ready self -> returns _match_item_patterns self.
Proof.
  intros Hready. pose proof Hready as (_ & (doc & Hdoc) & context & Hcontext).
  exists []. unfold runs, _match_item_patterns, bind at 1.
  rewrite (read_coreference_context_run _ _ Hcontext). cbv zeta.
  unfold bind. rewrite (read_utterance_doc_run _ _ Hdoc). cbn [ret].
  eexists _, self. split; [reflexivity | now apply steps_refl].
Qed.

Lemma match_pronouns_returns (self : EnglishState) :
  ready self -> returns _match_pronouns self.
Proof.
  intros Hready. pose proof Hready as (_ & (doc & Hdoc) & _).
  exists []. unfold runs, _match_pronouns, bind.
  rewrite (read_utterance_doc_run _ _ Hdoc). cbn [ret].
  eexists _, self. split; [reflexivity | now apply steps_refl].
Qed.

Lemma recognize_attribute_references_returns (self : EnglishState) :
  ready self -> returns _recognize_attribute_references self.
Proof.
  intros Hready. unfold _recognize_attribute_references.
  apply returns_bind; [assumption | now apply match_item_patterns_returns |].
  intros matched self' Hready'.
  apply returns_for_each; [|assumption].
  intros matched_text self'' Hready''. now apply recognize_common_returns.
Qed.

Lemma recognize_entity_references_returns (self : EnglishState) :
  ready self -> returns _recognize_entity_references self.
Proof.
  intros Hready. unfold _recognize_entity_references.
  apply returns_bind; [assumption | now apply match_pronouns_returns |].
  intros matched self' Hready'.
  apply returns_for_each; [|assumption].
  intros pronoun self'' Hready''. now apply recognize_common_returns.
Qed.

(** [recognize] of the English recognizer returns on every utterance that is
    a string, and never touches the presumptive reference text; without a
    context the utterance is stored as it is and nothing is resolved. *)
Lemma english_recognize_returns
    (coreference_context : option CoreferenceContext) (utterance : string)
    (self : EnglishState) :
  exists self',
    RuleBasedEnglish_recognize coreference_context (Some utterance) self =
      Some (tt, self') /\
    _presumptive_reference_text (base self') =
      _presumptive_reference_text (base self) /\
    (exists resolved, _utterance (base self') = Some resolved) /\
    (coreference_context = None ->
     _utterance (base self') = Some utterance /\ resolutions self' = []).
Proof.
  unfold RuleBasedEnglish_recognize.
  destruct coreference_context as [context|].
  - set (start :=
           {| base := set_utterance (Some utterance) (base self);
              _utterance_doc := Some (spacy_model utterance);
              _coreference_context := Some context;
              resolutions := [] |}).
    assert (Hready : ready start).
    { unfold ready, start; cbn. repeat split; eexists; reflexivity. }
    destruct (returns_bind _ (fun _ => _recognize_entity_references) start
                Hready (recognize_attribute_references_returns start Hready)
                (fun _ self' H => recognize_entity_references_returns self' H))
      as (log & a & self' & Hrun & Hu & _ & _ & Htext & _).
    exists self'. destruct a.
    split; [exact Hrun|].
    split; [rewrite Htext; reflexivity|].
    split; [exact Hu | discriminate].
  - eexists. split; [reflexivity|]. cbn. eauto.
Qed.

(** Whenever [recognize] of the English recognizer returns, the presumptive
    reference text is what it was. *)
Lemma english_recognize_keeps_text
    (coreference_context : option CoreferenceContext) (utterance : pystr)
    (self self' : EnglishState) :
  RuleBasedEnglish_recognize coreference_context utterance self =
    Some (tt, self') ->
  _presumptive_reference_text (base self') =
    _presumptive_reference_text (base self).
Proof.
  destruct utterance as [text|].
  - destruct (english_recognize_returns coreference_context text self)
      as (self'' & Hrun & Htext & _).
    rewrite Hrun. intros [= <-]. exact Htext.
  - destruct coreference_context as [context|]; cbn.
    + discriminate.
    + intros [= <-]. reflexivity.
Qed.

End Dispatch.

(** ** The phrase of one item *)

Lemma append_assoc (a b c : string) : (a ++ b) ++ c = a ++ (b ++ c).
Proof. induction a as [|x a IH]; cbn; [reflexivity | now rewrite IH]. Qed.

Lemma prefix_append (a b : string) : String.prefix a (a ++ b) = true.
Proof.
  induction a as [|c a IH]; cbn.
  - destruct b; reflexivity.
  - destruct (ascii_dec c c); [exact IH | congruence].
Qed.

(** C5.  With [presumptive] set, one value and [attribute_reference] unset,
    the phrase builder puts the entity name before the start phrase: the
    phrase is the entity name, [There is a with], item name and value, and it
    does not start with [There is a].  With [attribute_reference] set the
    phrase does start with [There is a] and holds no entity name prefix. *)
Theorem C5_presumptive_phrase_starts_with_entity_name :
  (forall entity_name item_name item_value : string,
     query_context_items_phrase false true entity_name item_name [item_value]
     = entity_name ++ " There is a with " ++ item_name ++ " " ++ item_value) /\
  (forall entity_name item_name item_value : string,
     query_context_items_phrase true true entity_name item_name [item_value]
     = "There is a " ++ item_name ++ " " ++ item_value) /\
  query_context_items_phrase false true "product" "color" ["red"]
  = "product There is a with color red" /\
  Py.startswith
    (query_context_items_phrase false true "product" "color" ["red"])
    "There is a" = false.
Proof.
  repeat split; reflexivity.
Qed.

(** C6, as stated, fails: for two values the code renders the very phrase
    the claim rules out, with [with] before every alternative. *)
Lemma C6_counterexample :
  query_context_items_phrase false false "orders" "id" ["1"; "2"]
  = "orders with id 1 or with id 2" /\
  query_context_items_phrase false false "orders" "id" ["1"; "2"]
  <> "orders id 1 or id 2".
Proof.
  split; [reflexivity | discriminate].
Qed.

(** C6, amended.  With [attribute_reference] unset: one value is rendered as
    the entity name, [with], item name and value; two or more values are
    rendered as the entity name followed by the alternatives separated by
    [or], every alternative keeping its own [with]; in all cases the phrase
    starts with the entity name and a space. *)
Theorem C6_with_before_every_alternative
    (entity_name item_name : string) :
  (forall item_value : string,
     query_context_items_phrase false false entity_name item_name [item_value]
     = entity_name ++ " with " ++ item_name ++ " " ++ item_value) /\
  (forall (presumptive : bool) (first second : string) (more : list string),
     query_context_items_phrase false presumptive entity_name item_name
       (first :: second :: more)
     = entity_name ++ " " ++
       Py.join " or "
         (map (fun item_value => "with " ++ item_name ++ " " ++ item_value)
              (first :: second :: more))) /\
  (forall (presumptive : bool) (item_values : list string),
     String.prefix (entity_name ++ " ")
       (query_context_items_phrase false presumptive entity_name item_name
          item_values) = true).
Proof.
  split; [|split].
  - reflexivity.
  - reflexivity.
  - intros presumptive item_values.
    unfold query_context_items_phrase. cbn [negb].
    destruct (Nat.eqb (List.length item_values) 1), presumptive;
      change (entity_name ++ _SPACE ++ ?rest)
        with (entity_name ++ (" " ++ rest));
      rewrite <- (append_assoc entity_name " ");
      apply prefix_append.
Qed.

(** ** Items without values, the filter phrase and the replacement *)

(** C7, as stated, fails: a primary key item without values is not skipped.
    It contributes the entity name followed by the separator as a dialog
    item, and that text replaces the pronoun. *)
Lemma C7_counterexample :
  _prepare_singular_query_context_phrase (C := TestDouble.collaborators)
    [] (Some Examples.valueless) false false
    (Examples.english_at Examples.valueless_context "is it red")
  = Some (["product "],
          Examples.english_at Examples.valueless_context "is it red") /\
  option_map resolve
    (recognize (Some Examples.valueless_context) (Some "is it red")
       Examples.english)
  = Some (Some "is product  red").
Proof.
  split; reflexivity.
Qed.

(** C7, amended.  An item without values raises no exception and is not
    skipped: its phrase is the empty string when [attribute_reference] is set
    and the entity name followed by a space otherwise, and the preparation of
    the dialog items returns with one phrase appended for every chosen item
    (the matched items, else the primary key items), whatever its values.
    When the first chosen item has no values, a resolution against the query
    context returns and replaces the matched text by that phrase: by the
    empty string, or by the entity name (pluralized in a plural resolution)
    followed by a space. *)
Theorem C7_item_without_values_is_rendered {C : Collaborators}
    (attribute_reference presumptive : bool) (entity_name : string)
    (dialog_items : list string) (query_context : QueryContext) (doc : Doc)
    (self : EnglishState) :
  _utterance_doc self = Some doc ->
  (forall item_name : string,
     query_context_items_phrase attribute_reference presumptive entity_name
       item_name []
     = if attribute_reference then "" else entity_name ++ " ") /\
  (exists appended : list string,
     _prepare_dialog_items_from_query_context_items attribute_reference
       dialog_items entity_name query_context presumptive self
     = Some ((dialog_items ++ appended)%list, self) /\
     appended =
       map (fun item =>
              query_context_items_phrase attribute_reference presumptive
                entity_name (get_name item) (get_values item))
           (chosen_items doc query_context) /\
     List.length appended = List.length (chosen_items doc query_context)) /\
  (forall (f : ResolutionFunction) (matched_text utterance : string)
          (item : QueryContextItem) (rest : list QueryContextItem),
     _utterance (base self) = Some utterance ->
     chosen_items doc query_context = item :: rest ->
     get_values item = [] ->
     exists self',
       _resolve_pronouns attribute_reference f (Some query_context)
         matched_text self = Some (tt, self') /\
       _utterance (base self')
       = Some (Py.replace utterance matched_text
                 (if attribute_reference then ""
                  else match f with
                       | prepare_singular => get_entityName query_context
                       | prepare_plural =>
                           pluralize (get_entityName query_context)
                       end ++ " "))).
Proof.
  intros Hdoc. split; [|split].
  - intros item_name. destruct attribute_reference; reflexivity.
  - eexists. split; [apply (prepare_items_run _ _ _ _ _ doc); exact Hdoc|].
    split; [reflexivity | apply length_map].
  - intros f matched_text utterance item rest Hu Hchosen Hvalues.
    eexists. split.
    + apply (resolve_pronouns_run _ _ _ _ utterance doc); assumption.
    + cbn [after_resolution base set_utterance _utterance dialog_items_for].
      rewrite Hchosen. cbn [map]. unfold item_phrase at 1 3.
      rewrite Hvalues.
      destruct f; cbn [resolved_utterance].
      * destruct attribute_reference; reflexivity.
      * unfold _prepare_dialog_item_from_filter_phrase.
        destruct (get_filterPhrase query_context) as [[|c phrase]|];
          cbn [app resolved_utterance];
          destruct attribute_reference; reflexivity.
Qed.

Lemma C7_witness :
  (exists appended : list string,
     _prepare_dialog_items_from_query_context_items
       (C := TestDouble.collaborators) false [] "product" Examples.valueless
       false (Examples.english_at Examples.valueless_context "is it red")
     = Some (([] ++ appended)%list,
             Examples.english_at Examples.valueless_context "is it red") /\
     appended =
       map (fun item =>
              query_context_items_phrase false false "product"
                (get_name item) (get_values item))
           (chosen_items (C := TestDouble.collaborators)
              ["is"; "it"; "red"] Examples.valueless) /\
     List.length appended =
       List.length (chosen_items (C := TestDouble.collaborators)
                      ["is"; "it"; "red"] Examples.valueless)) /\
  (exists self',
     _resolve_pronouns (C := TestDouble.collaborators) false prepare_singular
       (Some Examples.valueless) "it"
       (Examples.english_at Examples.valueless_context "is it red")
     = Some (tt, self') /\
     _utterance (base self')
     = Some (Py.replace "is it red" "it" ("product" ++ " "))).
Proof.
  split.
  - apply (C7_item_without_values_is_rendered (C := TestDouble.collaborators)
             false false "product" [] Examples.valueless ["is"; "it"; "red"]
             (Examples.english_at Examples.valueless_context "is it red")).
    reflexivity.
  - apply (proj2 (proj2
             (C7_item_without_values_is_rendered
                (C := TestDouble.collaborators) false false "product" []
                Examples.valueless ["is"; "it"; "red"]
                (Examples.english_at Examples.valueless_context "is it red")
                eq_refl))
             prepare_singular "it" "is it red" (Examples.item "id" []) []);
      reflexivity.
Defined.

(** C3, as stated, fails on its own example: [Show them] is resolved with
    the first dialog item, the phrase of the primary key item; the replacement
    holds neither the parenthesized filter phrase nor [id 1 or id 2]. *)
Lemma C3_counterexample :
  option_map resolve
    (recognize (Some Examples.orders_context) (Some "Show them")
       Examples.english)
  = Some (Some "Show orders with id 1 or with id 2") /\
  Py.contains "Show orders with id 1 or with id 2" "(over $50)" = false /\
  Py.contains "Show orders with id 1 or with id 2" "id 1 or id 2" = false.
Proof.
  repeat split; reflexivity.
Qed.

(** C3, amended.  For a plural query context with a non-empty filter phrase
    the dialog items are the phrases of the chosen items, built on the
    pluralized entity name, followed by one last item: the pluralized entity
    name, a space and the filter phrase in parentheses.  The resolution
    replaces the matched text by the first dialog item, so by the filter item
    only when no item phrase is rendered. *)
Theorem C3_filter_phrase_is_the_last_dialog_item {C : Collaborators}
    (attribute_reference : bool) (query_context : QueryContext)
    (filter_phrase matched_text utterance : string) (doc : Doc)
    (self : EnglishState) :
  _utterance (base self) = Some utterance ->
  _utterance_doc self = Some doc ->
  get_filterPhrase query_context = Some filter_phrase ->
  filter_phrase <> "" ->
  let pluralized := pluralize (get_entityName query_context) in
  let item_phrases :=
    map (fun item =>
           query_context_items_phrase attribute_reference false pluralized
             (get_name item) (get_values item))
        (chosen_items doc query_context) in
  let filter_item := pluralized ++ " (" ++ filter_phrase ++ ")" in
  _prepare_plural_query_context_phrase [] (Some query_context)
    attribute_reference false self
  = Some ((item_phrases ++ [filter_item])%list, self) /\
  exists self',
    _resolve_pronouns attribute_reference prepare_plural (Some query_context)
      matched_text self = Some (tt, self') /\
    _utterance (base self')
    = Some (Py.replace utterance matched_text (hd filter_item item_phrases)).
Proof.
  intros Hu Hdoc Hfilter Hnonempty pluralized item_phrases filter_item.
  assert (Hitems :
    dialog_items_for doc prepare_plural (Some query_context)
      attribute_reference false = (item_phrases ++ [filter_item])%list).
  { cbn [dialog_items_for].
    unfold _prepare_dialog_item_from_filter_phrase. rewrite Hfilter.
    destruct filter_phrase as [|c rest]; [congruence|]. reflexivity. }
  split.
  - pose proof (context_resolution_run prepare_plural [] (Some query_context)
                  attribute_reference false doc self Hdoc) as Hrun.
    cbn [context_resolution app] in Hrun. rewrite Hrun, Hitems. reflexivity.
  - eexists. split.
    + apply (resolve_pronouns_run _ _ _ _ utterance doc); assumption.
    + cbn [after_resolution base set_utterance _utterance].
      rewrite Hitems. f_equal.
      destruct item_phrases; reflexivity.
Qed.

Lemma C3_witness :
  _prepare_plural_query_context_phrase (C := TestDouble.collaborators)
    [] (Some Examples.orders) false false
    (Examples.english_at Examples.orders_context "Show them")
  = Some (["orders with id 1 or with id 2"; "orders (over $50)"],
          Examples.english_at Examples.orders_context "Show them") /\
  exists self',
    _resolve_pronouns (C := TestDouble.collaborators) false prepare_plural
      (Some Examples.orders) "them"
      (Examples.english_at Examples.orders_context "Show them")
    = Some (tt, self') /\
    _utterance (base self') = Some "Show orders with id 1 or with id 2".
Proof.
  apply (C3_filter_phrase_is_the_last_dialog_item
           (C := TestDouble.collaborators) false Examples.orders "over $50"
           "them" "Show them" ["Show"; "them"]
           (Examples.english_at Examples.orders_context "Show them")).
  - reflexivity.
  - reflexivity.
  - reflexivity.
  - discriminate.
Defined.

(** C4, as stated, fails: one resolution replaces both occurrences of the
    matched pronoun, where replacing the first occurrence only would leave the
    second [it] in place. *)
Lemma C4_counterexample :
  option_map (fun result => _utterance (base (snd result)))
    (_resolve_pronouns (C := TestDouble.collaborators) false prepare_singular
       (Some Examples.product) "it"
       (Examples.english_at Examples.product_context
          "is it cheap and is it red"))
  = Some (Some
      "is product with color red cheap and is product with color red red") /\
  replace_first "is it cheap and is it red" "it" "product with color red"
  = "is product with color red cheap and is it red".
Proof.
  split; reflexivity.
Qed.

(** C4, amended.  A resolution whose resolution function yields at least one
    dialog item returns and replaces the matched text by the first dialog item
    at every occurrence, scanning from the left without overlap: without an
    occurrence the utterance is unchanged, and with one the first occurrence
    is replaced and the text after it is treated the same way. *)
Theorem C4_every_occurrence_is_replaced {C : Collaborators}
    (attribute_reference : bool) (f : ResolutionFunction)
    (context : option QueryContext) (matched_text utterance : string)
    (first : string) (more : list string) (doc : Doc) (self : EnglishState) :
  _utterance (base self) = Some utterance ->
  _utterance_doc self = Some doc ->
  context_resolution f [] context attribute_reference false self
  = Some (first :: more, self) ->
  matched_text <> "" ->
  (exists self',
     _resolve_pronouns attribute_reference f context matched_text self
     = Some (tt, self') /\
     _utterance (base self')
     = Some (Py.replace utterance matched_text first)) /\
  (Py.find utterance matched_text = None ->
   Py.replace utterance matched_text first = utterance) /\
  (forall i : nat,
     Py.find utterance matched_text = Some i ->
     Py.replace utterance matched_text first
     = Py.take i utterance ++ first ++
       Py.replace (Py.drop (i + String.length matched_text) utterance)
         matched_text first).
Proof.
  intros Hu Hdoc Hitems Hnonempty.
  rewrite (context_resolution_run f [] context attribute_reference false doc
             self Hdoc) in Hitems.
  cbn [app] in Hitems. injection Hitems as Hitems.
  split; [|split].
  - eexists. split.
    + apply (resolve_pronouns_run _ _ _ _ utterance doc); assumption.
    + cbn [after_resolution base set_utterance _utterance].
      rewrite Hitems. reflexivity.
  - now apply replace_absent.
  - now apply replace_present.
Qed.

Lemma C4_witness :
  (exists self',
     _resolve_pronouns (C := TestDouble.collaborators) false prepare_singular
       (Some Examples.product) "it"
       (Examples.english_at Examples.product_context
          "is it cheap and is it red")
     = Some (tt, self') /\
     _utterance (base self')
     = Some (Py.replace "is it cheap and is it red" "it"
               "product with color red")) /\
  (Py.find "is it cheap and is it red" "it" = None ->
   Py.replace "is it cheap and is it red" "it" "product with color red"
   = "is it cheap and is it red") /\
  (forall i : nat,
     Py.find "is it cheap and is it red" "it" = Some i ->
     Py.replace "is it cheap and is it red" "it" "product with color red"
     = Py.take i "is it cheap and is it red" ++ "product with color red" ++
       Py.replace (Py.drop (i + String.length "it")
                     "is it cheap and is it red")
         "it" "product with color red").
Proof.
  apply (C4_every_occurrence_is_replaced (C := TestDouble.collaborators)
           false prepare_singular (Some Examples.product) "it"
           "is it cheap and is it red" "product with color red" []
           ["is"; "it"; "cheap"; "and"; "is"; "it"; "red"]
           (Examples.english_at Examples.product_context
              "is it cheap and is it red")).
  - reflexivity.
  - reflexivity.
  - reflexivity.
  - discriminate.
Defined.

(** ** The dispatch of a classified pronoun *)

(** C2, amended.  From an object in the middle of a [recognize] call,
    classifying one
    pronoun returns and calls [_resolve_pronouns] exactly as the dispatch rule
    says, in that order: per cardinality, against the object context unless
    the word is in the person table and against the person context unless the
    word is in the object table.  A word of a common table is dispatched to
    the object and then the person context of its cardinality, a word of a
    person table to the person context only, and no classification makes more
    than two resolutions. *)
Theorem C2_pronoun_dispatch {C : Collaborators}
    (matched_text : string) (pronoun : pystr) (attribute_reference : bool)
    (context : CoreferenceContext) (self : EnglishState) :
  ready self ->
  _coreference_context self = Some context ->
  let dispatched :=
    dispatch_rule context matched_text pronoun attribute_reference in
  let call f query_context :=
    {| res_attribute_reference := attribute_reference;
       res_function := f;
       res_context := query_context;
       res_matched_text := matched_text |} in
  (exists self',
     _recognize_common_pronouns matched_text pronoun attribute_reference self
     = Some (tt, self') /\
     resolutions self' = (resolutions self ++ dispatched)%list) /\
  (Py.mem pronoun _COMMON_SINGULAR_PRONOUNS = true ->
   dispatched =
     [call prepare_singular (get_singularObjectQueryContext context);
      call prepare_singular (get_singularPersonQueryContext context)]) /\
  (Py.mem pronoun _COMMON_PLURAL_PRONOUNS = true ->
   dispatched =
     [call prepare_plural (get_pluralObjectQueryContext context);
      call prepare_plural (get_pluralPersonQueryContext context)]) /\
  (Py.mem pronoun _SINGULAR_PERSON_PRONOUNS = true ->
   dispatched =
     [call prepare_singular (get_singularPersonQueryContext context)]) /\
  (Py.mem pronoun _PLURAL_PERSON_PRONOUNS = true ->
   dispatched =
     [call prepare_plural (get_pluralPersonQueryContext context)]) /\
  List.length dispatched <= 2.
Proof.
  intros Hready Hcontext dispatched call.
  split; [|repeat split].
  - destruct (recognize_common_runs matched_text pronoun attribute_reference
                context self Hready Hcontext)
      as ([] & self' & Hrun & _ & _ & _ & _ & Hlog).
    exists self'. split; assumption.
  - destruct pronoun as [word|]; [|discriminate].
    intros H. apply mem_In in H. cbn in H.
    repeat (destruct H as [<-|H]; [reflexivity|]). destruct H.
  - destruct pronoun as [word|]; [|discriminate].
    intros H. apply mem_In in H. cbn in H.
    repeat (destruct H as [<-|H]; [reflexivity|]). destruct H.
  - destruct pronoun as [word|]; [|discriminate].
    intros H. apply mem_In in H. cbn in H.
    repeat (destruct H as [<-|H]; [reflexivity|]). destruct H.
  - destruct pronoun as [word|]; [|discriminate].
    intros H. apply mem_In in H. cbn in H.
    repeat (destruct H as [<-|H]; [reflexivity|]). destruct H.
  - apply dispatch_rule_length.
Qed.

Lemma C2_witness :
  exists self',
    _recognize_common_pronouns (C := TestDouble.collaborators) "them"
      (Some "them") false
      (Examples.english_at Examples.orders_context "Show them")
    = Some (tt, self') /\
    resolutions self' =
      ([] ++ dispatch_rule Examples.orders_context "them" (Some "them")
               false)%list.
Proof.
  apply (C2_pronoun_dispatch (C := TestDouble.collaborators) "them"
           (Some "them") false Examples.orders_context
           (Examples.english_at Examples.orders_context "Show them")).
  - unfold ready. repeat split; eexists; reflexivity.
  - reflexivity.
Defined.

(** C2, as stated, fails in its bound per pronoun occurrence: in
    [what about its color] the one pronoun is classified in the attribute
    reference pass, within the matched text [its color], and again in the
    entity reference pass; each classification makes two resolutions, four in
    all for the one occurrence. *)
Lemma C2_counterexample :
  matched_texts (C := TestDouble.collaborators)
    ["what"; "about"; "its"; "color"]
    (_pronoun_matcher (C := TestDouble.collaborators)
       ["what"; "about"; "its"; "color"])
  = ["its"] /\
  option_map
    (fun result =>
       map (fun resolution =>
              (res_attribute_reference resolution,
               res_matched_text resolution))
           (resolutions (snd result)))
    (RuleBasedEnglish_recognize (C := TestDouble.collaborators)
       (Some Examples.colored_product_context) (Some "what about its color")
       RuleBasedEnglish_init)
  = Some [(true, "its color"); (true, "its color");
          (false, "its"); (false, "its")].
Proof.
  split; reflexivity.
Qed.

(** ** The orchestrator *)

Section Orchestration.

Context {C : Collaborators}.

Lemma set_utterance_twice (first second : pystr) (self : RecognizerState) :
  set_utterance second (set_utterance first self) = set_utterance second self.
Proof. reflexivity. Qed.

Lemma set_utterance_same (self : RecognizerState) :
  set_utterance (_utterance self) self = self.
Proof. destruct self; reflexivity. Qed.

Lemma non_empty_texts_cons (first : Recognizer) (rest : list Recognizer) :
  forall texts : list string,
  (append_if_truthy texts (presumptive_reference_text first)
     ++ non_empty_texts rest)%list
  = (texts ++ non_empty_texts (first :: rest))%list.
Proof.
  intros texts. unfold non_empty_texts, append_if_truthy. cbn [flat_map].
  destruct (presumptive_reference_text first) as [[|c text]|];
    cbn [app]; try reflexivity.
  now rewrite <- app_assoc.
Qed.

(** The loop of the orchestrator computes what [threaded] describes: the
    recognizers after their calls, the last resolved utterance in [self], and
    the presumptive texts that are neither [None] nor empty. *)
Lemma loop_threaded (coreference_context : option CoreferenceContext) :
  forall (recognizers : list Recognizer) (utterance : pystr)
         (self : RecognizerState) (texts : list string),
  _utterance self = utterance ->
  MultiLanguage_loop
    (fun text each => recognize coreference_context text each)
    recognizers utterance self texts
  = match threaded coreference_context utterance recognizers with
    | None => None
    | Some (recognizers', final) =>
        Some (recognizers', set_utterance final self,
              (texts ++ non_empty_texts recognizers')%list)
    end.
Proof.
  induction recognizers as [|first rest IH]; intros utterance self texts Hu.
  - cbn. rewrite app_nil_r, <- Hu, set_utterance_same. reflexivity.
  - cbn [MultiLanguage_loop threaded].
    destruct (recognize coreference_context utterance first) as [first'|];
      [|reflexivity].
    rewrite IH by reflexivity.
    destruct (threaded coreference_context (resolve first') rest)
      as [[rest' final]|]; [|reflexivity].
    rewrite set_utterance_twice, non_empty_texts_cons. reflexivity.
Qed.

Lemma last_cons {A : Type} (xs : list A) :
  forall x default : A, last (x :: xs) default = last xs x.
Proof.
  induction xs as [|y rest IH]; intros x default; [reflexivity|].
  change (last (x :: y :: rest) default) with (last (y :: rest) default).
  now rewrite !IH.
Qed.

(** The last resolved utterance is the one of the last recognizer. *)
Lemma threaded_last (coreference_context : option CoreferenceContext) :
  forall (recognizers : list Recognizer) (utterance : pystr),
  match threaded coreference_context utterance recognizers with
  | None => True
  | Some (recognizers', final) =>
      final = last (map resolve recognizers') utterance /\
      List.length recognizers' = List.length recognizers
  end.
Proof.
  induction recognizers as [|first rest IH]; intros utterance.
  - cbn. auto.
  - cbn [threaded].
    destruct (recognize coreference_context utterance first) as [first'|];
      [|exact I].
    specialize (IH (resolve first')).
    destruct (threaded coreference_context (resolve first') rest)
      as [[rest' final]|]; [|exact I].
    destruct IH as [-> Hlen]. split; [|cbn; now rewrite Hlen].
    cbn [map]. now rewrite last_cons.
Qed.

End Orchestration.

(** C1, as stated, fails: an orchestrator holding two orchestrators without
    recognizers collects two presumptive texts that are not [None] (both the
    empty string); joined with a space they give one space, but the
    orchestrator's presumptive text is the empty string. *)
Lemma C1_counterexample :
  match recognize (Some Examples.no_context) (Some "hi")
          (Examples.orchestrator
             [Examples.orchestrator []; Examples.orchestrator []]) with
  | Some (MultiLanguage self recognizers) =>
      _presumptive_reference_text self = Some "" /\
      map presumptive_reference_text recognizers = [Some ""; Some ""] /\
      Py.join " " (non_none_texts recognizers) = " "
  | _ => False
  end.
Proof.
  cbn. repeat split; reflexivity.
Qed.

(** C1, amended.  With a context, [recognize] of the orchestrator is the
    threading of the utterance through its recognizers in order, each one
    called with the utterance the previous one resolved and the first one
    with the original.  When every call returns, [resolve] gives the last
    recognizer's resolved text (the original utterance when there is no
    recognizer) and the presumptive text is the join, with one space, of the
    recognizers' presumptive texts that are neither [None] nor empty, in
    order; when a call raises, so does the orchestrator. *)
Theorem C1_orchestrator_threads_the_utterance {C : Collaborators}
    (context : CoreferenceContext) (utterance : pystr)
    (self : RecognizerState) (recognizers : list Recognizer) :
  recognize (Some context) utterance (MultiLanguage self recognizers)
  = match threaded (Some context) utterance recognizers with
    | None => None
    | Some (recognizers', final) =>
        Some (MultiLanguage
                {| _presumptive_reference_text :=
                     Some (Py.join " " (non_empty_texts recognizers'));
                   _utterance := final |}
                recognizers')
    end /\
  match threaded (Some context) utterance recognizers,
        recognize (Some context) utterance (MultiLanguage self recognizers)
  with
  | Some (recognizers', final), Some orchestrator =>
      resolve orchestrator = final /\
      final = last (map resolve recognizers') utterance /\
      presumptive_reference_text orchestrator
      = Some (Py.join " " (non_empty_texts recognizers'))
  | Some _, None => False
  | None, Some _ => False
  | None, None => True
  end.
Proof.
  assert (Hrun :
    recognize (Some context) utterance (MultiLanguage self recognizers)
    = match threaded (Some context) utterance recognizers with
      | None => None
      | Some (recognizers', final) =>
          Some (MultiLanguage
                  {| _presumptive_reference_text :=
                       Some (Py.join " " (non_empty_texts recognizers'));
                     _utterance := final |}
                  recognizers')
      end).
  { cbn [recognize]. unfold MultiLanguage_recognize.
    rewrite loop_threaded by reflexivity.
    destruct (threaded (Some context) utterance recognizers)
      as [[recognizers' final]|]; reflexivity. }
  split; [exact Hrun|].
  rewrite Hrun.
  pose proof (threaded_last (Some context) recognizers utterance) as Hlast.
  destruct (threaded (Some context) utterance recognizers)
    as [[recognizers' final]|]; [|exact I].
  destruct Hlast as [Hlast _]. repeat split. exact Hlast.
Qed.

(** C8.  Without a context, on every utterance that is a string, each of the
    three recognizers returns from [recognize] and then resolves to that very
    utterance; the English recognizer has made no resolution and the
    orchestrator has not called its recognizers. *)
Theorem C8_absent_context_is_a_pass_through {C : Collaborators}
    (utterance : string) :
  (forall self : RecognizerState,
     exists recognizer,
       recognize None (Some utterance) (Indonesian self) = Some recognizer /\
       resolve recognizer = Some utterance) /\
  (forall self : EnglishState,
     exists self',
       recognize None (Some utterance) (RuleBasedEnglish self)
       = Some (RuleBasedEnglish self') /\
       resolve (RuleBasedEnglish self') = Some utterance /\
       resolutions self' = []) /\
  (forall (self : RecognizerState) (recognizers : list Recognizer),
     exists self',
       recognize None (Some utterance) (MultiLanguage self recognizers)
       = Some (MultiLanguage self' recognizers) /\
       resolve (MultiLanguage self' recognizers) = Some utterance).
Proof.
  split; [|split].
  - intros self. eexists. split; reflexivity.
  - intros self. eexists. split; [reflexivity|]. split; reflexivity.
  - intros self recognizers. eexists. split; reflexivity.
Qed.

(** C9.  Without a context the orchestrator returns before its presumptive
    text is assigned: the text of an earlier call stays.  After a call with a
    context, a call without one still gives the earlier text, where a new
    orchestrator given the same call gives [None]. *)
Theorem C9_orchestrator_keeps_the_earlier_presumptive_text :
  (forall (C : Collaborators) (utterance : pystr) (self : RecognizerState)
          (recognizers : list Recognizer),
     recognize None utterance (MultiLanguage self recognizers)
     = Some (MultiLanguage (set_utterance utterance self) recognizers) /\
     _presumptive_reference_text (set_utterance utterance self)
     = _presumptive_reference_text self) /\
  option_map presumptive_reference_text
    (recognize_all [(Some Examples.no_context, Some "a"); (None, Some "b")]
       (Examples.orchestrator
          [Indonesian (C := TestDouble.collaborators)
             AbstractCoreferenceRecognizer_init]))
  = Some (Some "") /\
  option_map presumptive_reference_text
    (recognize_all [(None, Some "b")]
       (Examples.orchestrator
          [Indonesian (C := TestDouble.collaborators)
             AbstractCoreferenceRecognizer_init]))
  = Some None /\
  option_map presumptive_reference_text
    (recognize_all [(Some Examples.no_context, Some "a"); (None, Some "b")]
       (Examples.orchestrator [Examples.announcing "There is a product"]))
  = Some (Some "There is a product").
Proof.
  split; [|repeat split; reflexivity].
  intros C utterance self recognizers. split; reflexivity.
Qed.

(** C10.  The presumptive text of the English recognizer is [None] after
    construction and after every sequence of [recognize] calls that return;
    and on utterances that are strings every call does return. *)
Theorem C10_english_presumptive_text_is_none {C : Collaborators} :
  presumptive_reference_text (RuleBasedEnglish RuleBasedEnglish_init) = None /\
  (forall calls : list (option CoreferenceContext * pystr),
     match recognize_all calls (RuleBasedEnglish RuleBasedEnglish_init) with
     | Some recognizer => presumptive_reference_text recognizer = None
     | None => True
     end) /\
  (forall calls : list (option CoreferenceContext * string),
     exists recognizer,
       recognize_all (map (fun call => (fst call, Some (snd call))) calls)
         (RuleBasedEnglish RuleBasedEnglish_init)
       = Some recognizer /\
       presumptive_reference_text recognizer = None).
Proof.
  split; [reflexivity|]. split.
  - intros calls.
    assert (H : forall self : EnglishState,
              _presumptive_reference_text (base self) = None ->
              match recognize_all calls (RuleBasedEnglish self) with
              | Some recognizer => presumptive_reference_text recognizer = None
              | None => True
              end).
    { induction calls as [|[context utterance] rest IH]; intros self Hnone.
      - exact Hnone.
      - cbn [recognize_all recognize].
        destruct (RuleBasedEnglish_recognize context utterance self)
          as [[[] self']|] eqn:Hrun; [|exact I].
        apply IH.
        rewrite (english_recognize_keeps_text _ _ _ _ Hrun). exact Hnone. }
    now apply H.
  - intros calls.
    assert (H : forall self : EnglishState,
              _presumptive_reference_text (base self) = None ->
              exists recognizer,
                recognize_all
                  (map (fun call => (fst call, Some (snd call))) calls)
                  (RuleBasedEnglish self) = Some recognizer /\
                presumptive_reference_text recognizer = None).
    { induction calls as [|[context utterance] rest IH]; intros self Hnone.
      - eexists. split; [reflexivity | exact Hnone].
      - cbn [map fst snd recognize_all recognize].
        destruct (english_recognize_returns context utterance self)
          as (self' & Hrun & Htext & _).
        rewrite Hrun. apply IH. congruence. }
    now apply H.
Qed.

(** * Further properties of the code *)

(** ** The two passes as a replay of their resolutions *)

Section Passes.

Context {C : Collaborators}.

Lemma replay_app (doc : Doc) (l1 l2 : list Resolution) (utterance : string) :
  replay doc (l1 ++ l2) utterance = replay doc l2 (replay doc l1 utterance).
Proof. unfold replay. apply fold_left_app. Qed.

Lemma steps_doc (self self' : EnglishState) (log : list Resolution)
    (doc : Doc) :
  _utterance_doc self = Some doc -> steps self self' log ->
  _utterance_doc self' = Some doc.
Proof. intros H (_ & Hd & _). congruence. Qed.

Lemma replays_ret {A : Type} (a : A) (self : EnglishState) :
  ready self -> replays (ret a) self [].
Proof.
  intros Hready utterance doc Hu Hdoc. exists a, self.
  split; [reflexivity|]. split; [now apply steps_refl | exact Hu].
Qed.

Lemma replays_bind {A B : Type} (m : M A) (k : A -> M B)
    (self : EnglishState) (l1 l2 : list Resolution) :
  replays m self l1 ->
  (forall a self', m self = Some (a, self') -> steps self self' l1 ->
     replays (k a) self' l2) ->
  replays (bind m k) self (l1 ++ l2).
Proof.
  intros Hm Hk utterance doc Hu Hdoc.
  destruct (Hm utterance doc Hu Hdoc) as (a & s1 & Hrun & Hsteps & Hu1).
  destruct (Hk a s1 Hrun Hsteps _ doc Hu1 (steps_doc _ _ _ _ Hdoc Hsteps))
    as (b & s2 & Hrun2 & Hsteps2 & Hu2).
  exists b, s2. split; [|split].
  - unfold bind. rewrite Hrun. exact Hrun2.
  - eapply steps_trans; eassumption.
  - rewrite replay_app. exact Hu2.
Qed.

Lemma replays_for_each {A : Type} (body : A -> M unit)
    (log_of : A -> list Resolution) (context : CoreferenceContext) :
  (forall x self, ready self -> _coreference_context self = Some context ->
     replays (body x) self (log_of x)) ->
  forall xs self, ready self -> _coreference_context self = Some context ->
  replays (for_each xs body) self (flat_map log_of xs).
Proof.
  intros Hbody xs. induction xs as [|x rest IH]; intros self Hready Hcontext.
  - now apply replays_ret.
  - cbn [for_each flat_map]. apply replays_bind; [now apply Hbody|].
    intros a self' _ Hsteps. apply IH.
    + exact (steps_ready _ _ _ Hready Hsteps).
    + exact (steps_context _ _ _ _ Hcontext Hsteps).
Qed.

Lemma resolve_pronouns_replays (attribute_reference : bool)
    (f : ResolutionFunction) (context : option QueryContext)
    (matched_text : string) (self : EnglishState) :
  replays (_resolve_pronouns attribute_reference f context matched_text) self
    [call_of attribute_reference f context matched_text].
Proof.
  intros utterance doc Hu Hdoc. eexists tt, _. split; [|split].
  - apply (resolve_pronouns_run _ _ _ _ utterance doc); assumption.
  - unfold steps, after_resolution; cbn. eauto 6.
  - reflexivity.
Qed.

Lemma guarded_dispatch_replays (guard attribute_reference : bool)
    (f : ResolutionFunction)
    (getter : CoreferenceContext -> option QueryContext)
    (matched_text : string) (context : CoreferenceContext)
    (self : EnglishState) :
  ready self -> _coreference_context self = Some context ->
  replays (if guard
           then self_context <- read_coreference_context ;;
                _resolve_pronouns attribute_reference f (getter self_context)
                  matched_text
           else ret tt) self
          (if guard
           then [call_of attribute_reference f (getter context) matched_text]
           else []).
Proof.
  intros Hready Hcontext. destruct guard; [|now apply replays_ret].
  intros utterance doc Hu Hdoc.
  destruct (resolve_pronouns_replays attribute_reference f (getter context)
              matched_text self utterance doc Hu Hdoc)
    as (a & self' & Hrun & Hrest).
  exists a, self'. split; [|exact Hrest].
  unfold bind. rewrite (read_coreference_context_run _ _ Hcontext).
  exact Hrun.
Qed.

Lemma recognize_singular_replays (matched_text : string) (pronoun : pystr)
    (attribute_reference : bool) (context : CoreferenceContext)
    (self : EnglishState) :
  ready self -> _coreference_context self = Some context ->
  replays
    (_recognize_singular_pronouns matched_text pronoun attribute_reference)
    self
    (if Py.mem pronoun _SINGULAR_PRONOUNS
     then (if Py.mem pronoun _SINGULAR_PERSON_PRONOUNS then []
           else [call_of attribute_reference prepare_singular
                   (get_singularObjectQueryContext context) matched_text]) ++
          (if Py.mem pronoun _SINGULAR_OBJECT_PRONOUNS then []
           else [call_of attribute_reference prepare_singular
                   (get_singularPersonQueryContext context) matched_text])
     else [])%list.
Proof.
  intros Hready Hcontext. unfold _recognize_singular_pronouns.
  destruct (Py.mem pronoun _SINGULAR_PRONOUNS); cbn [negb];
    [|now apply replays_ret].
  apply replays_bind.
  - pose proof (guarded_dispatch_replays
                  (negb (Py.mem pronoun _SINGULAR_PERSON_PRONOUNS))
                  attribute_reference prepare_singular
                  get_singularObjectQueryContext matched_text context self
                  Hready Hcontext) as H.
    destruct (Py.mem pronoun _SINGULAR_PERSON_PRONOUNS); exact H.
  - intros a self' _ Hsteps.
    pose proof (guarded_dispatch_replays
                  (negb (Py.mem pronoun _SINGULAR_OBJECT_PRONOUNS))
                  attribute_reference prepare_singular
                  get_singularPersonQueryContext matched_text context self'
                  (steps_ready _ _ _ Hready Hsteps)
                  (steps_context _ _ _ _ Hcontext Hsteps)) as H.
    destruct (Py.mem pronoun _SINGULAR_OBJECT_PRONOUNS); exact H.
Qed.

Lemma recognize_plural_replays (matched_text : string) (pronoun : pystr)
    (attribute_reference : bool) (context : CoreferenceContext)
    (self : EnglishState) :
  ready self -> _coreference_context self = Some context ->
  replays
    (_recognize_plural_pronouns matched_text pronoun attribute_reference)
    self
    (if Py.mem pronoun _PLURAL_PRONOUNS
     then (if Py.mem pronoun _PLURAL_PERSON_PRONOUNS then []
           else [call_of attribute_reference prepare_plural
                   (get_pluralObjectQueryContext context) matched_text]) ++
          (if Py.mem pronoun _PLURAL_OBJECT_PRONOUNS then []
           else [call_of attribute_reference prepare_plural
                   (get_pluralPersonQueryContext context) matched_text])
     else [])%list.
Proof.
  intros Hready Hcontext. unfold _recognize_plural_pronouns.
  destruct (Py.mem pronoun _PLURAL_PRONOUNS); cbn [negb];
    [|now apply replays_ret].
  apply replays_bind.
  - pose proof (guarded_dispatch_replays
                  (negb (Py.mem pronoun _PLURAL_PERSON_PRONOUNS))
                  attribute_reference prepare_plural
                  get_pluralObjectQueryContext matched_text context self
                  Hready Hcontext) as H.
    destruct (Py.mem pronoun _PLURAL_PERSON_PRONOUNS); exact H.
  - intros a self' _ Hsteps.
    pose proof (guarded_dispatch_replays
                  (negb (Py.mem pronoun _PLURAL_OBJECT_PRONOUNS))
                  attribute_reference prepare_plural
                  get_pluralPersonQueryContext matched_text context self'
                  (steps_ready _ _ _ Hready Hsteps)
                  (steps_context _ _ _ _ Hcontext Hsteps)) as H.
    destruct (Py.mem pronoun _PLURAL_OBJECT_PRONOUNS); exact H.
Qed.

Lemma recognize_common_replays (matched_text : string) (pronoun : pystr)
    (attribute_reference : bool) (context : CoreferenceContext)
    (self : EnglishState) :
  ready self -> _coreference_context self = Some context ->
  replays
    (_recognize_common_pronouns matched_text pronoun attribute_reference)
    self (dispatch_rule context matched_text pronoun attribute_reference).
Proof.
  intros Hready Hcontext. unfold _recognize_common_pronouns.
  apply (replays_bind _ _ _ _ _
           (recognize_singular_replays matched_text pronoun
              attribute_reference context self Hready Hcontext)).
  intros a self' _ Hsteps.
  apply recognize_plural_replays.
  - exact (steps_ready _ _ _ Hready Hsteps).
  - exact (steps_context _ _ _ _ Hcontext Hsteps).
Qed.

(** The list of [(key, pattern)] additions [_match_item_patterns] makes. *)
Lemma match_item_patterns_run (self : EnglishState)
    (context : CoreferenceContext) (doc : Doc) :
  _coreference_context self = Some context ->
  _utterance_doc self = Some doc ->
  exists added : list (string * Pattern),
    _match_item_patterns self
    = Some (matched_texts doc (run_matcher added doc), self) /\
    Forall (fun entry => exists words, snd entry = _PRON_LEMMA :: words)
      added.
Proof.
  intros Hcontext Hdoc. unfold _match_item_patterns, bind at 1.
  rewrite (read_coreference_context_run _ _ Hcontext). cbv zeta.
  unfold bind. rewrite (read_utterance_doc_run _ _ Hdoc). cbn [ret].
  eexists. split; [reflexivity|].
  apply Forall_forall. intros entry Hin.
  apply in_flat_map in Hin. destruct Hin as (item_name & _ & Hin).
  cbn in Hin. destruct Hin as [<-|[]]. eexists. reflexivity.
Qed.

Lemma match_pronouns_run (self : EnglishState) (doc : Doc) :
  _utterance_doc self = Some doc ->
  _match_pronouns self
  = Some (matched_texts doc (_pronoun_matcher doc), self).
Proof.
  intros Hdoc. unfold _match_pronouns, bind.
  now rewrite (read_utterance_doc_run _ _ Hdoc).
Qed.

Lemma pass_start_ready (context : CoreferenceContext) (utterance : string)
    (self : EnglishState) :
  ready (pass_start context utterance self).
Proof. unfold ready, pass_start; cbn. repeat split; eexists; reflexivity. Qed.

Lemma dispatch_log_length (context : CoreferenceContext) (attr : bool)
    (pronoun_of : string -> pystr) (matched : list string) :
  List.length
    (flat_map (fun text => dispatch_rule context text (pronoun_of text) attr)
       matched)
  <= 2 * List.length matched.
Proof.
  induction matched as [|text rest IH]; cbn [flat_map List.length];
    [lia|].
  rewrite length_app.
  pose proof (dispatch_rule_length context text (pronoun_of text) attr).
  lia.
Qed.

(** [recognize] with a context, on an utterance that is a string: the two
    passes and what they leave. *)
Lemma english_recognize_replays (context : CoreferenceContext)
    (utterance : string) (self : EnglishState) :
  let start := pass_start context utterance self in
  let doc := spacy_model utterance in
  exists (attribute_matches : list string) (self' : EnglishState),
    _match_item_patterns start = Some (attribute_matches, start) /\
    let log :=
      (attribute_pass_log context attribute_matches ++
       entity_pass_log context (matched_texts doc (_pronoun_matcher doc)))%list
    in
    RuleBasedEnglish_recognize (Some context) (Some utterance) self
    = Some (tt, self') /\
    resolutions self' = log /\
    _utterance (base self') = Some (replay doc log utterance) /\
    _utterance_doc self' = Some doc /\
    _coreference_context self' = Some context /\
    _presumptive_reference_text (base self')
    = _presumptive_reference_text (base self).
Proof.
  intros start doc.
  destruct (match_item_patterns_run start context doc eq_refl eq_refl)
    as (added & Hitems & _).
  exists (matched_texts doc (run_matcher added doc)).
  assert (Hpasses :
    replays (_recognize_attribute_references ;; _recognize_entity_references)
      start
      (attribute_pass_log context (matched_texts doc (run_matcher added doc))
       ++ entity_pass_log context (matched_texts doc (_pronoun_matcher doc)))).
  { apply replays_bind.
    - unfold _recognize_attribute_references.
      intros u d Hu Hd. unfold bind at 1. rewrite Hitems.
      apply (replays_for_each _
               (fun text => dispatch_rule context text (_match_pronoun text)
                              true) context); try reflexivity;
        [|apply pass_start_ready | assumption | assumption].
      intros x s Hr Hc. now apply recognize_common_replays.
    - intros a s1 _ Hsteps.
      unfold _recognize_entity_references.
      intros u d Hu Hd. unfold bind at 1.
      pose proof (steps_doc start s1 _ doc eq_refl Hsteps) as Hdoc1.
      rewrite (match_pronouns_run _ _ Hdoc1).
      apply (replays_for_each _
               (fun pronoun => dispatch_rule context pronoun (Some pronoun)
                                 false) context);
        [| exact (steps_ready _ _ _ (pass_start_ready _ _ _) Hsteps)
         | exact (steps_context start s1 _ context eq_refl Hsteps)
         | assumption | assumption].
      intros x s Hr Hc. now apply recognize_common_replays. }
  destruct (Hpasses utterance doc eq_refl eq_refl)
    as ([] & self' & Hrun & (_ & Hd & Hc & Ht & Hlog) & Hu).
  exists self'. split; [exact Hitems|]. cbv zeta.
  split; [exact Hrun|]. split; [exact Hlog|]. split; [exact Hu|].
  split; [exact Hd|]. split; [exact Hc | exact Ht].
Qed.

End Passes.

Section PassProperties.

Context {C : Collaborators}.

Lemma replay_absent (doc : Doc) (log : list Resolution) :
  Forall (fun resolution => res_context resolution = None) log ->
  forall utterance, replay doc log utterance = utterance.
Proof.
  induction 1 as [|resolution rest Hnone _ IH]; intros utterance;
    [reflexivity|].
  unfold replay in *. cbn [fold_left]. rewrite Hnone. cbn. apply IH.
Qed.

Lemma dispatch_rule_absent (context : CoreferenceContext)
    (matched_text : string) (pronoun : pystr) (attribute_reference : bool) :
  get_singularPersonQueryContext context = None ->
  get_singularObjectQueryContext context = None ->
  get_pluralPersonQueryContext context = None ->
  get_pluralObjectQueryContext context = None ->
  Forall (fun resolution => res_context resolution = None)
    (dispatch_rule context matched_text pronoun attribute_reference).
Proof.
  intros H1 H2 H3 H4. unfold dispatch_rule. rewrite H1, H2, H3, H4.
  apply Forall_app. split;
    repeat match goal with
           | |- context [if ?b then _ else _] => destruct b
           end;
    repeat constructor.
Qed.

Lemma flat_map_Forall {A B : Type} (P : B -> Prop) (f : A -> list B)
    (xs : list A) :
  (forall x, Forall P (f x)) -> Forall P (flat_map f xs).
Proof.
  intros H. induction xs as [|x rest IH]; cbn; [constructor|].
  apply Forall_app. auto.
Qed.

End PassProperties.

(** X1.  [recognize] of the English recognizer with a context, on an
    utterance that is a string, returns.  It makes the resolutions of the
    attribute reference pass, one classification per matched item pattern,
    and then those of the entity reference pass, one classification per
    matched pronoun, all matches being taken from the document of the original
    utterance.  The resolved utterance is the original one with these
    resolutions applied in that order, and there are at most two resolutions
    per match. *)
Theorem X1_recognize_runs_two_passes {C : Collaborators}
    (context : CoreferenceContext) (utterance : string)
    (self : EnglishState) :
  let start := pass_start context utterance self in
  let doc := spacy_model utterance in
  let pronoun_matches := matched_texts doc (_pronoun_matcher doc) in
  exists (attribute_matches : list string) (self' : EnglishState),
    _match_item_patterns start = Some (attribute_matches, start) /\
    RuleBasedEnglish_recognize (Some context) (Some utterance) self
    = Some (tt, self') /\
    resolutions self'
    = (attribute_pass_log context attribute_matches ++
       entity_pass_log context pronoun_matches)%list /\
    _utterance (base self')
    = Some (replay doc (resolutions self') utterance) /\
    List.length (resolutions self')
    <= 2 * (List.length attribute_matches + List.length pronoun_matches).
Proof.
  intros start doc pronoun_matches.
  destruct (english_recognize_replays context utterance self)
    as (attribute_matches & self' & Hitems & Hrun & Hlog & Hu & _).
  exists attribute_matches, self'.
  split; [exact Hitems|]. split; [exact Hrun|]. split; [exact Hlog|].
  split; [rewrite Hlog; exact Hu|].
  rewrite Hlog, length_app.
  pose proof (dispatch_log_length context true _match_pronoun
                attribute_matches) as H1.
  pose proof (dispatch_log_length context false Some pronoun_matches) as H2.
  apply (Nat.le_trans _ (2 * List.length attribute_matches
                         + 2 * List.length pronoun_matches));
    [apply Nat.add_le_mono; assumption | lia].
Qed.

(** X2.  With a context in which all four query contexts are absent, the
    English recognizer resolves every utterance to itself, whatever the
    matchers find. *)
Theorem X2_context_without_roles_changes_nothing {C : Collaborators}
    (context : CoreferenceContext) (utterance : string)
    (self : EnglishState) :
  get_singularPersonQueryContext context = None ->
  get_singularObjectQueryContext context = None ->
  get_pluralPersonQueryContext context = None ->
  get_pluralObjectQueryContext context = None ->
  exists self',
    recognize (Some context) (Some utterance) (RuleBasedEnglish self)
    = Some (RuleBasedEnglish self') /\
    resolve (RuleBasedEnglish self') = Some utterance.
Proof.
  intros H1 H2 H3 H4.
  destruct (english_recognize_replays context utterance self)
    as (attribute_matches & self' & _ & Hrun & _ & Hu & _).
  exists self'. cbn [recognize resolve]. rewrite Hrun.
  split; [reflexivity|].
  unfold RuleBasedEnglish_resolve. rewrite Hu. f_equal.
  apply replay_absent. apply Forall_app. split;
    apply flat_map_Forall; intros x; now apply dispatch_rule_absent.
Qed.

Lemma X2_witness :
  exists self',
    recognize (Some Examples.no_context) (Some "is it red") Examples.english
    = Some (RuleBasedEnglish self') /\
    resolve (RuleBasedEnglish self') = Some "is it red".
Proof.
  apply (X2_context_without_roles_changes_nothing
           (C := TestDouble.collaborators) Examples.no_context "is it red"
           RuleBasedEnglish_init); reflexivity.
Defined.

(** X3.  When no pattern that starts with the pronoun lemma matches the
    document of the utterance, [recognize] of the English recognizer makes no
    resolution and resolves the utterance to itself. *)
Theorem X3_no_pronoun_no_change {C : Collaborators}
    (context : CoreferenceContext) (utterance : string)
    (self : EnglishState) :
  (forall added : list (string * Pattern),
     Forall (fun entry => exists words, snd entry = _PRON_LEMMA :: words)
       added ->
     run_matcher added (spacy_model utterance) = []) ->
  exists self',
    RuleBasedEnglish_recognize (Some context) (Some utterance) self
    = Some (tt, self') /\
    resolutions self' = [] /\
    RuleBasedEnglish_resolve self' = Some utterance.
Proof.
  intros Hnone.
  destruct (english_recognize_replays context utterance self)
    as (attribute_matches & self' & Hitems & Hrun & Hlog & Hu & _).
  destruct (match_item_patterns_run (pass_start context utterance self)
              context (spacy_model utterance) eq_refl eq_refl)
    as (added & Hitems' & Hadded).
  rewrite Hitems' in Hitems. injection Hitems as <-.
  rewrite (Hnone added Hadded) in Hlog, Hu.
  assert (Hpron : _pronoun_matcher (spacy_model utterance) = []).
  { apply Hnone. repeat constructor. eexists. reflexivity. }
  rewrite Hpron in Hlog, Hu. cbn in Hlog, Hu.
  exists self'. split; [exact Hrun|]. split; [exact Hlog | exact Hu].
Qed.

Lemma test_double_finds_no_pronoun (added : list (string * Pattern)) :
  Forall (fun entry => exists words, snd entry = _PRON_LEMMA :: words) added ->
  TestDouble.matches_from added 0 ["hello"; "world"] = [].
Proof.
  intros Hadded.
  assert (H : forall start token rest,
            TestDouble.lemma token <> _PRON_LEMMA ->
            flat_map
              (fun entry : string * Pattern =>
                 if TestDouble.pattern_matches (snd entry) (token :: rest)
                 then [(start, start + List.length (snd entry))]
                 else []) added = []).
  { intros start token rest Hlemma.
    induction Hadded as [|[key pattern] more (words & Hwords) _ IH];
      [reflexivity|].
    cbn [snd] in Hwords. subst pattern.
    cbn [flat_map snd TestDouble.pattern_matches]. rewrite IH.
    destruct (String.eqb _PRON_LEMMA (TestDouble.lemma token)) eqn:E.
    - apply String.eqb_eq in E. congruence.
    - reflexivity. }
  cbn [TestDouble.matches_from].
  rewrite !H by discriminate. reflexivity.
Qed.

Lemma X3_witness :
  exists self',
    RuleBasedEnglish_recognize (C := TestDouble.collaborators)
      (Some Examples.product_context) (Some "hello world")
      RuleBasedEnglish_init
    = Some (tt, self') /\
    resolutions self' = [] /\
    RuleBasedEnglish_resolve self' = Some "hello world".
Proof.
  apply (X3_no_pronoun_no_change (C := TestDouble.collaborators)
           Examples.product_context "hello world" RuleBasedEnglish_init).
  exact test_double_finds_no_pronoun.
Defined.

(** X4.  A pronoun that neither cardinality table lists is not resolved:
    classifying it returns the object as it is.  This holds when no pronoun at
    all is found in the matched text, for the words of
    [_COMMON_PERSON_PRONOUNS], and for a capitalized pronoun, as membership is
    case sensitive. *)
Theorem X4_unlisted_pronoun_is_ignored {C : Collaborators}
    (matched_text : string) (pronoun : pystr) (attribute_reference : bool)
    (self : EnglishState) :
  Py.mem pronoun _SINGULAR_PRONOUNS = false ->
  Py.mem pronoun _PLURAL_PRONOUNS = false ->
  _recognize_common_pronouns matched_text pronoun attribute_reference self
  = Some (tt, self) /\
  Forall (fun word =>
            Py.mem (Some word) _SINGULAR_PRONOUNS = false /\
            Py.mem (Some word) _PLURAL_PRONOUNS = false)
    ("It" :: "They" :: _COMMON_PERSON_PRONOUNS) /\
  Py.mem None _SINGULAR_PRONOUNS = false /\
  Py.mem None _PLURAL_PRONOUNS = false.
Proof.
  intros Hsingular Hplural. split.
  - unfold _recognize_common_pronouns, _recognize_singular_pronouns,
      _recognize_plural_pronouns, bind.
    rewrite Hsingular, Hplural. reflexivity.
  - split; [|split; reflexivity].
    repeat constructor.
Qed.

Lemma X4_witness :
  _recognize_common_pronouns (C := TestDouble.collaborators) "It" (Some "It")
    false (Examples.english_at Examples.product_context "It is red")
  = Some (tt, Examples.english_at Examples.product_context "It is red").
Proof.
  apply (X4_unlisted_pronoun_is_ignored (C := TestDouble.collaborators) "It"
           (Some "It") false
           (Examples.english_at Examples.product_context "It is red"));
    reflexivity.
Defined.

(** ** Which phrases a query context yields *)

Lemma filter_all_false {A : Type} (f : A -> bool) (xs : list A) :
  Forall (fun x => f x = false) xs -> filter f xs = [].
Proof.
  induction 1 as [|x rest Hx _ IH]; cbn; [reflexivity|].
  now rewrite Hx.
Qed.

(** X5.  A singular resolution against a present query context that has no
    primary key items and none of whose items is matched in the document
    yields no dialog item: it returns and leaves the utterance as it is. *)
Theorem X5_singular_context_without_phrase {C : Collaborators}
    (attribute_reference : bool) (query_context : QueryContext)
    (matched_text utterance : string) (doc : Doc) (self : EnglishState) :
  _utterance (base self) = Some utterance ->
  _utterance_doc self = Some doc ->
  get_primaryKeyItems query_context = [] ->
  Forall (fun item => item_matches doc item = false)
    (get_items query_context) ->
  _prepare_singular_query_context_phrase [] (Some query_context)
    attribute_reference false self = Some ([], self) /\
  exists self',
    _resolve_pronouns attribute_reference prepare_singular
      (Some query_context) matched_text self = Some (tt, self') /\
    _utterance (base self') = Some utterance.
Proof.
  intros Hu Hdoc Hkeys Hitems.
  assert (Hchosen : chosen_items doc query_context = []).
  { unfold chosen_items. now rewrite (filter_all_false _ _ Hitems). }
  split.
  - cbn [_prepare_singular_query_context_phrase].
    rewrite (prepare_items_run _ _ _ _ _ doc self Hdoc), Hchosen.
    reflexivity.
  - eexists. split.
    + apply (resolve_pronouns_run _ _ _ _ utterance doc); assumption.
    + cbn [after_resolution base set_utterance _utterance dialog_items_for].
      rewrite Hchosen. reflexivity.
Qed.

Lemma X5_witness :
  _prepare_singular_query_context_phrase (C := TestDouble.collaborators)
    [] (Some (Build_QueryContext "product"
                [Examples.item "color" ["red"]] [] None))
    false false (Examples.english_at Examples.no_context "is it red")
  = Some ([], Examples.english_at Examples.no_context "is it red") /\
  exists self',
    _resolve_pronouns (C := TestDouble.collaborators) false prepare_singular
      (Some (Build_QueryContext "product"
               [Examples.item "color" ["red"]] [] None))
      "it" (Examples.english_at Examples.no_context "is it red")
    = Some (tt, self') /\
    _utterance (base self') = Some "is it red".
Proof.
  apply (X5_singular_context_without_phrase (C := TestDouble.collaborators)
           false
           (Build_QueryContext "product" [Examples.item "color" ["red"]] []
              None)
           "it" "is it red" ["is"; "it"; "red"]
           (Examples.english_at Examples.no_context "is it red")).
  - reflexivity.
  - reflexivity.
  - reflexivity.
  - repeat constructor.
Defined.

(** X6.  A plural resolution against a present query context always yields a
    dialog item, so it always replaces the matched text.  When the context has
    no primary key items and none of its items is matched, the replacement is
    the pluralized entity name, followed by a space and the parenthesized
    filter phrase when that is a non-empty string; an empty filter phrase
    counts as an absent one. *)
Theorem X6_plural_context_always_replaces {C : Collaborators}
    (attribute_reference : bool) (query_context : QueryContext)
    (matched_text utterance : string) (doc : Doc) (self : EnglishState) :
  _utterance (base self) = Some utterance ->
  _utterance_doc self = Some doc ->
  (exists (first : string) (more : list string) (self' : EnglishState),
     _prepare_plural_query_context_phrase [] (Some query_context)
       attribute_reference false self = Some (first :: more, self) /\
     _resolve_pronouns attribute_reference prepare_plural
       (Some query_context) matched_text self = Some (tt, self') /\
     _utterance (base self')
     = Some (Py.replace utterance matched_text first)) /\
  (get_primaryKeyItems query_context = [] ->
   Forall (fun item => item_matches doc item = false)
     (get_items query_context) ->
   _prepare_plural_query_context_phrase [] (Some query_context)
     attribute_reference false self
   = Some ([match get_filterPhrase query_context with
            | Some EmptyString | None =>
                pluralize (get_entityName query_context)
            | Some filter_phrase =>
                pluralize (get_entityName query_context)
                ++ " (" ++ filter_phrase ++ ")"
            end], self)).
Proof.
  intros Hu Hdoc.
  pose proof (context_resolution_run prepare_plural [] (Some query_context)
                attribute_reference false doc self Hdoc) as Hrun.
  cbn [context_resolution app] in Hrun.
  split.
  - assert (Hsome : exists first more,
              dialog_items_for doc prepare_plural (Some query_context)
                attribute_reference false = first :: more).
    { cbn [dialog_items_for].
      unfold _prepare_dialog_item_from_filter_phrase.
      destruct (map _ (chosen_items doc query_context)) as [|x xs];
        destruct (get_filterPhrase query_context) as [[|c rest]|];
        cbn [app]; eauto. }
    destruct Hsome as (first & more & Hitems).
    exists first, more. eexists. split; [|split].
    + rewrite Hrun, Hitems. reflexivity.
    + apply (resolve_pronouns_run _ _ _ _ utterance doc); assumption.
    + cbn [after_resolution base set_utterance _utterance].
      rewrite Hitems. reflexivity.
  - intros Hkeys Hnone. rewrite Hrun. cbn [dialog_items_for].
    unfold chosen_items. rewrite (filter_all_false _ _ Hnone), Hkeys.
    cbn [map]. unfold _prepare_dialog_item_from_filter_phrase.
    destruct (get_filterPhrase query_context) as [[|c rest]|]; reflexivity.
Qed.

Lemma X6_witness :
  exists (first : string) (more : list string) (self' : EnglishState),
    _prepare_plural_query_context_phrase (C := TestDouble.collaborators)
      [] (Some (Build_QueryContext "order" [] [] (Some ""))) false false
      (Examples.english_at Examples.no_context "Show them")
    = Some (first :: more,
            Examples.english_at Examples.no_context "Show them") /\
    _resolve_pronouns (C := TestDouble.collaborators) false prepare_plural
      (Some (Build_QueryContext "order" [] [] (Some ""))) "them"
      (Examples.english_at Examples.no_context "Show them")
    = Some (tt, self') /\
    _utterance (base self') = Some (Py.replace "Show them" "them" first).
Proof.
  apply (X6_plural_context_always_replaces (C := TestDouble.collaborators)
           false (Build_QueryContext "order" [] [] (Some "")) "them"
           "Show them" ["Show"; "them"]
           (Examples.english_at Examples.no_context "Show them"));
    reflexivity.
Defined.

(** X7.  The primary key items are a fallback: when at least one item of the
    query context is matched in the document, the phrases appended are those
    of the matched items, in order, and no primary key item is rendered; when
    none is matched, the phrases appended are those of all primary key
    items.  The list passed in is kept as a prefix and the object is left as
    it is. *)
Theorem X7_primary_keys_are_a_fallback {C : Collaborators}
    (attribute_reference presumptive : bool) (dialog_items : list string)
    (entity_name : string) (query_context : QueryContext) (doc : Doc)
    (self : EnglishState) :
  _utterance_doc self = Some doc ->
  let phrase item :=
    query_context_items_phrase attribute_reference presumptive entity_name
      (get_name item) (get_values item) in
  let matched := filter (item_matches doc) (get_items query_context) in
  _prepare_dialog_items_from_query_context_items attribute_reference
    dialog_items entity_name query_context presumptive self
  = Some ((dialog_items ++
           map phrase
             (if existsb (item_matches doc) (get_items query_context)
              then matched
              else get_primaryKeyItems query_context))%list, self).
Proof.
  intros Hdoc phrase matched.
  rewrite (prepare_items_run _ _ _ _ _ doc self Hdoc).
  unfold chosen_items.
  destruct (existsb (item_matches doc) (get_items query_context)) eqn:Hany.
  - apply filter_some in Hany. fold matched in Hany |- *.
    destruct matched; [congruence | reflexivity].
  - rewrite (filter_none _ _ Hany). reflexivity.
Qed.

Lemma X7_witness :
  _prepare_dialog_items_from_query_context_items
    (C := TestDouble.collaborators) true [] "product"
    (Build_QueryContext "product"
       [Examples.item "color" ["red"]; Examples.item "size" ["big"]]
       [Examples.item "id" ["7"]] None)
    false (Examples.english_at Examples.no_context "what about its color")
  = Some (["color red"],
          Examples.english_at Examples.no_context "what about its color").
Proof.
  apply (X7_primary_keys_are_a_fallback (C := TestDouble.collaborators) true
           false [] "product"
           (Build_QueryContext "product"
              [Examples.item "color" ["red"]; Examples.item "size" ["big"]]
              [Examples.item "id" ["7"]] None)
           ["what"; "about"; "its"; "color"]
           (Examples.english_at Examples.no_context "what about its color")).
  reflexivity.
Defined.

(** ** The English recognizer keeps no memory of earlier calls *)

Section History.

Context {C : Collaborators}.

Lemma english_reaches (calls : list (option CoreferenceContext * pystr)) :
  forall (self : EnglishState) (recognizer : Recognizer),
  _presumptive_reference_text (base self) = None ->
  recognize_all calls (RuleBasedEnglish self) = Some recognizer ->
  exists self',
    recognizer = RuleBasedEnglish self' /\
    _presumptive_reference_text (base self') = None.
Proof.
  induction calls as [|[context utterance] rest IH];
    intros self recognizer Hnone Hrun.
  - injection Hrun as <-. eauto.
  - cbn [recognize_all recognize] in Hrun.
    destruct (RuleBasedEnglish_recognize context utterance self)
      as [[[] self1]|] eqn:Hcall; [|discriminate].
    apply (IH self1 recognizer); [|exact Hrun].
    rewrite (english_recognize_keeps_text _ _ _ _ Hcall). exact Hnone.
Qed.

Lemma english_recognize_from_start (context : CoreferenceContext)
    (utterance : string) (self : EnglishState) :
  RuleBasedEnglish_recognize (Some context) (Some utterance) self
  = (_recognize_attribute_references ;; _recognize_entity_references)
      (pass_start context utterance self).
Proof. reflexivity. Qed.

Lemma pass_start_same (context : CoreferenceContext) (utterance : string)
    (self1 self2 : EnglishState) :
  _presumptive_reference_text (base self1)
  = _presumptive_reference_text (base self2) ->
  pass_start context utterance self1 = pass_start context utterance self2.
Proof.
  intros H. unfold pass_start, set_utterance. now rewrite H.
Qed.

End History.

(** X8.  Two English recognizers that have been through any sequences of
    returning [recognize] calls behave alike on the next call: with a context
    the call leaves both in the same state (or raises for both), and without
    one both resolve to the utterance given and have [None] as presumptive
    text. *)
Theorem X8_english_forgets_earlier_calls {C : Collaborators}
    (calls1 calls2 : list (option CoreferenceContext * pystr))
    (recognizer1 recognizer2 : Recognizer)
    (context : CoreferenceContext) (utterance : pystr) :
  recognize_all calls1 (RuleBasedEnglish RuleBasedEnglish_init)
  = Some recognizer1 ->
  recognize_all calls2 (RuleBasedEnglish RuleBasedEnglish_init)
  = Some recognizer2 ->
  recognize (Some context) utterance recognizer1
  = recognize (Some context) utterance recognizer2 /\
  option_map resolve (recognize None utterance recognizer1)
  = Some utterance /\
  option_map resolve (recognize None utterance recognizer2)
  = Some utterance /\
  option_map presumptive_reference_text
    (recognize None utterance recognizer1) = Some None /\
  option_map presumptive_reference_text
    (recognize None utterance recognizer2) = Some None.
Proof.
  intros H1 H2.
  destruct (english_reaches calls1 RuleBasedEnglish_init recognizer1 eq_refl
              H1) as (self1 & -> & Hnone1).
  destruct (english_reaches calls2 RuleBasedEnglish_init recognizer2 eq_refl
              H2) as (self2 & -> & Hnone2).
  split.
  - cbn [recognize]. destruct utterance as [text|]; [|reflexivity].
    rewrite !english_recognize_from_start.
    rewrite (pass_start_same context text self1 self2) by congruence.
    reflexivity.
  - cbn. rewrite Hnone1, Hnone2. repeat split; reflexivity.
Qed.

Lemma X8_witness :
  recognize (Some Examples.product_context) (Some "is it red")
    (RuleBasedEnglish
       (Examples.english_at Examples.orders_context "Show you"))
  = recognize (Some Examples.product_context) (Some "is it red")
      Examples.english.
Proof.
  refine (proj1
            (X8_english_forgets_earlier_calls
               (C := TestDouble.collaborators)
               [(Some Examples.no_context, Some "Show them");
                (None, Some "Show them");
                (Some Examples.orders_context, Some "Show you")]
               [] _ _ Examples.product_context (Some "is it red") _ _)).
  - reflexivity.
  - reflexivity.
Defined.

(** ** Composing orchestrators *)

Section Composition.

Context {C : Collaborators}.

Lemma orchestrator_run (context : CoreferenceContext) (utterance : pystr)
    (self : RecognizerState) (recognizers : list Recognizer) :
  recognize (Some context) utterance (MultiLanguage self recognizers)
  = match threaded (Some context) utterance recognizers with
    | None => None
    | Some (recognizers', final) =>
        Some (MultiLanguage
                {| _presumptive_reference_text :=
                     Some (Py.join " " (non_empty_texts recognizers'));
                   _utterance := final |}
                recognizers')
    end.
Proof.
  cbn [recognize]. unfold MultiLanguage_recognize.
  rewrite loop_threaded by reflexivity.
  destruct (threaded (Some context) utterance recognizers)
    as [[recognizers' final]|]; reflexivity.
Qed.

Lemma threaded_app (coreference_context : option CoreferenceContext)
    (before after : list Recognizer) :
  forall utterance : pystr,
  threaded coreference_context utterance (before ++ after)
  = match threaded coreference_context utterance before with
    | None => None
    | Some (before', middle) =>
        match threaded coreference_context middle after with
        | None => None
        | Some (after', final) => Some ((before' ++ after')%list, final)
        end
    end.
Proof.
  induction before as [|first rest IH]; intros utterance.
  - cbn. destruct (threaded coreference_context utterance after)
      as [[after' final]|]; reflexivity.
  - cbn [app threaded].
    destruct (recognize coreference_context utterance first) as [first'|];
      [|reflexivity].
    rewrite IH.
    destruct (threaded coreference_context (resolve first') rest)
      as [[rest' middle]|]; [|reflexivity].
    destruct (threaded coreference_context middle after)
      as [[after' final]|]; reflexivity.
Qed.

Lemma non_empty_texts_app (before after : list Recognizer) :
  non_empty_texts (before ++ after)
  = (non_empty_texts before ++ non_empty_texts after)%list.
Proof. unfold non_empty_texts. apply flat_map_app. Qed.

Lemma non_empty_texts_pass_through
    (coreference_context : option CoreferenceContext) (utterance : pystr)
    (self : RecognizerState) (rest : list Recognizer) :
  truthy (_presumptive_reference_text self) = false ->
  non_empty_texts
    (Indonesian (Indonesian_recognize coreference_context utterance self)
     :: rest)
  = non_empty_texts rest.
Proof.
  intros Hfalsy. unfold non_empty_texts. cbn.
  destruct (_presumptive_reference_text self) as [[|c text]|];
    [reflexivity | discriminate | reflexivity].
Qed.

End Composition.

(** X9.  [add_recognizer] puts the recognizer at the end of the list: with a
    context, the orchestrator it returns first does what the orchestrator did
    before, then calls the added recognizer with the utterance resolved so
    far, resolves to what that recognizer resolves, and joins the presumptive
    texts of all recognizers anew; it raises when the earlier part or the
    added recognizer raises. *)
Theorem X9_added_recognizer_runs_last {C : Collaborators}
    (context : CoreferenceContext) (utterance : pystr)
    (self : RecognizerState) (recognizers : list Recognizer)
    (added : Recognizer) :
  match add_recognizer added (MultiLanguage self recognizers) with
  | Some orchestrator =>
      recognize (Some context) utterance orchestrator
      = match recognize (Some context) utterance
                (MultiLanguage self recognizers) with
        | Some (MultiLanguage before recognizers') =>
            match recognize (Some context) (_utterance before) added with
            | Some added' =>
                Some (MultiLanguage
                        {| _presumptive_reference_text :=
                             Some (Py.join " "
                                     (non_empty_texts
                                        (recognizers' ++ [added'])));
                           _utterance := resolve added' |}
                        (recognizers' ++ [added']))
            | None => None
            end
        | _ => None
        end
  | None => False
  end.
Proof.
  cbn [add_recognizer]. rewrite !orchestrator_run, threaded_app.
  destruct (threaded (Some context) utterance recognizers)
    as [[recognizers' middle]|]; [|reflexivity].
  cbn [threaded _utterance].
  destruct (recognize (Some context) middle added) as [added'|];
    reflexivity.
Qed.

(** X10.  A pass-through recognizer without presumptive text can be put
    anywhere in the list of an orchestrator: with a context, the orchestrator
    resolves to the same utterance and has the same presumptive text as
    without it, and raises in the same cases. *)
Theorem X10_pass_through_recognizer_is_neutral {C : Collaborators}
    (context : CoreferenceContext) (utterance : pystr)
    (self : RecognizerState) (before after : list Recognizer)
    (indonesian : RecognizerState) :
  truthy (_presumptive_reference_text indonesian) = false ->
  let observe orchestrator :=
    (resolve orchestrator, presumptive_reference_text orchestrator) in
  option_map observe
    (recognize (Some context) utterance
       (MultiLanguage self (before ++ Indonesian indonesian :: after)))
  = option_map observe
      (recognize (Some context) utterance
         (MultiLanguage self (before ++ after))).
Proof.
  intros Hfalsy observe. rewrite !orchestrator_run, !threaded_app.
  destruct (threaded (Some context) utterance before)
    as [[before' middle]|]; [|reflexivity].
  cbn [threaded recognize resolve Indonesian_recognize Indonesian_resolve
       set_utterance _utterance].
  destruct (threaded (Some context) middle after) as [[after' final]|];
    [|reflexivity].
  cbn [option_map]. unfold observe. cbn [resolve presumptive_reference_text
    _utterance _presumptive_reference_text].
  rewrite !non_empty_texts_app.
  rewrite (non_empty_texts_pass_through _ _ _ _ Hfalsy). reflexivity.
Qed.

Lemma X10_witness :
  option_map
    (fun orchestrator =>
       (resolve orchestrator, presumptive_reference_text orchestrator))
    (recognize (Some Examples.product_context) (Some "is it red")
       (Examples.orchestrator
          ([Examples.english] ++
           Indonesian (C := TestDouble.collaborators)
             AbstractCoreferenceRecognizer_init :: [])))
  = option_map
      (fun orchestrator =>
         (resolve orchestrator, presumptive_reference_text orchestrator))
      (recognize (Some Examples.product_context) (Some "is it red")
         (Examples.orchestrator ([Examples.english] ++ []))).
Proof.
  apply (X10_pass_through_recognizer_is_neutral
           (C := TestDouble.collaborators) Examples.product_context
           (Some "is it red") AbstractCoreferenceRecognizer_init
           [Examples.english] [] AbstractCoreferenceRecognizer_init).
  reflexivity.
Defined.

(** X11.  An orchestrator may hold an orchestrator: with a context, an
    orchestrator whose only recognizer is an orchestrator over a list resolves
    to the same utterance and has the same presumptive text as an orchestrator
    over that list, and raises in the same cases. *)
Theorem X11_nested_orchestrator_is_transparent {C : Collaborators}
    (context : CoreferenceContext) (utterance : pystr)
    (outer inner self : RecognizerState) (recognizers : list Recognizer) :
  let observe orchestrator :=
    (resolve orchestrator, presumptive_reference_text orchestrator) in
  option_map observe
    (recognize (Some context) utterance
       (MultiLanguage outer [MultiLanguage inner recognizers]))
  = option_map observe
      (recognize (Some context) utterance (MultiLanguage self recognizers)).
Proof.
  intros observe. rewrite (orchestrator_run context utterance outer).
  cbn [threaded]. rewrite !orchestrator_run.
  destruct (threaded (Some context) utterance recognizers)
    as [[recognizers' final]|]; [|reflexivity].
  cbn [option_map resolve _utterance]. unfold observe.
  cbn [resolve presumptive_reference_text _utterance
       _presumptive_reference_text].
  f_equal. f_equal. f_equal.
  unfold non_empty_texts at 1.
  cbn [flat_map presumptive_reference_text _presumptive_reference_text].
  rewrite app_nil_r.
  destruct (Py.join " " (non_empty_texts recognizers')); reflexivity.
Qed.

(** ** Item patterns and item names *)

Lemma split_not_empty (sep : ascii) (s : string) : Py.split sep s <> [].
Proof.
  destruct s as [|c rest]; cbn; [discriminate|].
  destruct (Ascii.eqb c sep); [discriminate|].
  destruct (Py.split sep rest); discriminate.
Qed.

Lemma join_cons (sep word : string) (words : list string) :
  words <> [] ->
  Py.join sep (word :: words) = word ++ sep ++ Py.join sep words.
Proof. destruct words; [congruence | reflexivity]. Qed.

Lemma join_split (s : string) : Py.join " " (Py.split " "%char s) = s.
Proof.
  induction s as [|c rest IH]; [reflexivity|].
  cbn [Py.split].
  destruct (Ascii.eqb c " "%char) eqn:Hc.
  - apply Ascii.eqb_eq in Hc. subst c.
    rewrite join_cons by apply split_not_empty. now rewrite IH.
  - pose proof (split_not_empty " "%char rest) as Hne.
    destruct (Py.split " "%char rest) as [|word words]; [congruence|].
    destruct words as [|second more].
    + cbn in IH |- *. now rewrite IH.
    + rewrite join_cons in IH |- * by discriminate.
      cbn [append] in IH |- *. now rewrite IH.
Qed.

Lemma contains_space_cons (c : ascii) (word : string) :
  Ascii.eqb c " "%char = false ->
  Py.contains word " " = false ->
  Py.contains (String c word) " " = false.
Proof.
  intros Hc Hword. unfold Py.contains in *. rewrite find_cons.
  cbn [String.prefix].
  destruct (ascii_dec " "%char c) as [<-|_]; [discriminate|].
  destruct (Py.find word " "); [discriminate | reflexivity].
Qed.

Lemma split_words_hold_no_space (s : string) :
  Forall (fun word => Py.contains word " " = false) (Py.split " "%char s).
Proof.
  induction s as [|c rest IH]; [repeat constructor|].
  cbn [Py.split].
  destruct (Ascii.eqb c " "%char) eqn:Hc.
  - constructor; [reflexivity | exact IH].
  - destruct (Py.split " "%char rest) as [|word words].
    + repeat constructor. now apply contains_space_cons.
    + inversion IH as [|w ws Hword Hwords]; subst.
      constructor; [now apply contains_space_cons | exact Hwords].
Qed.

Lemma split_length (s : string) :
  List.length (Py.split " "%char s)
  = S (List.length
         (filter (fun c => Ascii.eqb c " "%char) (list_ascii_of_string s))).
Proof.
  induction s as [|c rest IH]; [reflexivity|].
  cbn [Py.split list_ascii_of_string filter].
  destruct (Ascii.eqb c " "%char).
  - cbn [List.length]. now rewrite IH.
  - rewrite <- IH.
    pose proof (split_not_empty " "%char rest).
    destruct (Py.split " "%char rest); [congruence | reflexivity].
Qed.

(** X12.  The pattern of an item name is a single pattern: the pronoun lemma
    followed by the pieces the single spaces of the name separate.  There is
    one piece more than the name has spaces, no piece holds a space, and the
    pieces joined by single spaces are the item name again; so an empty name
    gives one empty lemma and a doubled space gives an empty lemma between
    two words. *)
Theorem X12_item_pattern_spells_the_item_name :
  (forall item_name : string,
     exists words : list string,
       _item_patterns item_name = [_PRON_LEMMA :: words] /\
       words <> [] /\
       Py.join _SPACE words = item_name /\
       Forall (fun word => Py.contains word " " = false) words /\
       List.length words
       = S (List.length
              (filter (fun c => Ascii.eqb c " "%char)
                 (list_ascii_of_string item_name))) /\
       List.length (_PRON_LEMMA :: words) >= 2) /\
  _item_patterns "unit price" = [["-PRON-"; "unit"; "price"]] /\
  _item_patterns "unit  price" = [["-PRON-"; "unit"; ""; "price"]] /\
  _item_patterns "" = [["-PRON-"; ""]].
Proof.
  split; [|repeat split; reflexivity].
  intros item_name.
  exists (Py.split " "%char item_name).
  split; [reflexivity|]. split; [apply split_not_empty|].
  split; [apply join_split|].
  split; [apply split_words_hold_no_space|].
  split; [apply split_length|].
  cbn [List.length]. rewrite split_length. lia.
Qed.

(** X13.  [_item_names] answers [None] for an absent query context and for
    one without items; otherwise it answers the names of the items, each name
    once, and nothing else. *)
Theorem X13_item_names_are_the_distinct_names :
  _item_names None = None /\
  forall query_context : QueryContext,
    match get_items query_context with
    | [] => _item_names (Some query_context) = None
    | _ :: _ =>
        exists names : list string,
          _item_names (Some query_context) = Some names /\
          names <> [] /\
          NoDup names /\
          forall name : string,
            In name names <->
            exists item, In item (get_items query_context) /\
                         get_name item = name
    end.
Proof.
  split; [reflexivity|]. intros query_context.
  unfold _item_names.
  destruct (get_items query_context) as [|first rest] eqn:Hitems;
    [reflexivity|].
  exists (nodup string_dec (map get_name (first :: rest))).
  split; [reflexivity|]. split; [|split].
  - intros Hnil.
    assert (Hin : In (get_name first)
                    (nodup string_dec (map get_name (first :: rest)))).
    { apply nodup_In. now left. }
    rewrite Hnil in Hin. destruct Hin.
  - apply NoDup_nodup.
  - intros name. rewrite nodup_In, in_map_iff.
    split; intros (item & H1 & H2); exists item; split; assumption.
Qed.

(** ** Recognizers that hold recognizers: the store *)

Section StoreProperties.

Context {C : Collaborators}.





















End StoreProperties.


